(** * bsuite-tsobs: the actor-critic agent, its driver and the wandb logger

    A shallow embedding of
    - [bsuite/baselines/jax/actor_critic/agent.py] (the [ActorCritic] agent),
    - [bsuite/baselines/jax/actor_critic/run.py] (the experiment driver),
    - [bsuite/logging/wandb_logging.py] (the [WandbLogger]),
    together with the statements of the specification that concern them.

    Python objects are records, methods are state-passing functions, raised
    exceptions are the [Raise] case of [result], and every call that leaves
    the module (jitted functions, library entry points) is recorded in a log
    so that "how many times" can be stated. *)

From Stdlib Require Import ZArith QArith Lia.
From stdpp Require Import base list strings gmap.

Local Close Scope Q_scope.
Local Open Scope string_scope.
Local Open Scope nat_scope.
Local Open Scope list_scope.

(** ** Python values, exceptions *)

Inductive exn : Type :=
| ValueError (msg : string)
| TypeError (msg : string)
| AttributeError (msg : string)
| KeyError (msg : string)
| IndexError (msg : string).

Inductive result (A : Type) : Type :=
| Ok (a : A)
| Raise (e : exn).
Arguments Ok {A} a.
Arguments Raise {A} e.

Definition result_bind {A B} (r : result A) (k : A → result B) : result B :=
  match r with
  | Ok a => k a
  | Raise e => Raise e
  end.

Definition result_map {A B} (f : A → B) (r : result A) : result B :=
  result_bind r (λ a, Ok (f a)).

(** The dynamically typed values that the driver handles: flag values and
    the attributes of the [sweep] module and of an environment.  The only
    tuples in sight are tuples of bsuite identifiers. *)
Inductive PyVal : Type :=
| PyNone
| PyInt (z : Z)
| PyStr (s : string)
| PyTuple (items : list string).

(** Truth value testing: [None], [0], [''] and [()] are false. *)
Definition truthy (v : PyVal) : bool :=
  match v with
  | PyNone => false
  | PyInt z => negb (z =? 0)%Z
  | PyStr s => negb (String.eqb s "")
  | PyTuple items => negb (Nat.eqb (length items) 0)
  end.

(** [x or y]: [y] is evaluated only when [x] is false. *)
Definition py_or (x : PyVal) (y : result PyVal) : result PyVal :=
  if truthy x then Ok x else y.

(** ** Programs with a state, a log and exceptions

    A method of an object with state [S] is a function of the state that
    returns the calls it made, in order, and either a value with the new
    state or the exception it raised. *)
Definition Prog (S L A : Type) : Type := S → list L * result (A * S).

Section Prog.
Context {S L : Type}.

Definition ret {A} (a : A) : Prog S L A := λ s, ([], Ok (a, s)).

Definition bind {A B} (m : Prog S L A) (k : A → Prog S L B) : Prog S L B :=
  λ s,
    match m s with
    | (l1, Ok (a, s')) => let '(l2, r) := k a s' in (l1 ++ l2, r)
    | (l1, Raise e) => (l1, Raise e)
    end.

Definition get : Prog S L S := λ s, ([], Ok (s, s)).
Definition put (s : S) : Prog S L unit := λ _, ([], Ok (tt, s)).
Definition tell (c : L) : Prog S L unit := λ s, ([c], Ok (tt, s)).
Definition raise {A} (e : exn) : Prog S L A := λ _, ([], Raise e).

Definition lift {A} (r : result A) : Prog S L A :=
  match r with
  | Ok a => ret a
  | Raise e => raise e
  end.

End Prog.

#[global] Instance Prog_ret {S L} : MRet (Prog S L) := λ A, ret.
#[global] Instance Prog_bind {S L} : MBind (Prog S L) := λ A B k m, bind m k.

(** A pure computation that only logs its calls. *)
Definition Logged (L A : Type) : Type := list L * A.

Definition logged {L A} (c : L) (a : A) : Logged L A := ([c], a).

#[global] Instance Logged_ret {L} : MRet (Logged L) := λ A a, ([], a).
#[global] Instance Logged_bind {L} : MBind (Logged L) :=
  λ A B k m, let '(l2, b) := k m.2 in (m.1 ++ l2, b).

(** ** Numbers and arrays

    The agent computes on [float32] arrays.  The scalar type and its
    operations are abstract: the statements below are about which values
    are handed to which operation, and hold for any arithmetic. *)
Class Scalars : Type := {
  F : Type;
  fzero : F;
  fone : F;
  fadd : F → F → F;
  fmul : F → F → F;
  (* [x ** n] *)
  fpow : F → Z → F;
  (* [jnp.mean] of a one-dimensional array *)
  jnp_mean : list F → F;
}.

Section Arrays.
Context `{Scalars}.

(** An n-dimensional array: its shape and its entries in row-major order. *)
Record Tensor : Type := {
  shape : list nat;
  data : list F;
}.

(** [jnp.zeros(shape, dtype=jnp.float32)] *)
Definition jnp_zeros (shp : list nat) : Tensor :=
  {| shape := shp; data := replicate (foldr Nat.mul 1 shp) fzero |}.

(** [jnp.ones_like(x)] for a one-dimensional [x] *)
Definition jnp_ones_like (x : list F) : list F := replicate (length x) fone.

(** An array with a leading time or batch axis is the list of its slices
    along that axis; [x[None, ...]] is then the one-element list. *)
Definition add_batch_axis (x : Tensor) : list Tensor := [x].

(** [jnp.zeros((1, *shape))] seen along its leading axis. *)
Definition jnp_zeros_batched (n : nat) (shp : list nat) : list Tensor :=
  replicate n (jnp_zeros shp).

(** [dm_env.StepType] and [dm_env.TimeStep] *)
Inductive StepType : Type := FIRST | MID | LAST.

Record TimeStep : Type := {
  step_type : StepType;
  reward : F;
  discount : F;
  observation : Tensor;
}.

Definition last (ts : TimeStep) : bool :=
  match step_type ts with LAST => true | _ => false end.

(** [specs.Array] and [specs.DiscreteArray] *)
Record ArraySpec : Type := { spec_shape : list nat }.
Record DiscreteArraySpec : Type := { num_values : nat }.

(** [base.Action = int] *)
Definition Action : Type := Z.
End Arrays.

(** ** The trajectory buffer *)
Module sequence.
Section Buffer.
Context `{Scalars}.

(** Modelled from the spec: [sequence.Trajectory] is declared in
    [bsuite/baselines/utils/sequence.py], which is not among the sources.
    "parallel arrays: observations (length T+1), actions, rewards,
    discounts (length T)". *)
Record Trajectory : Type := {
  observations : list Tensor;
  actions : list Action;
  rewards : list F;
  discounts : list F;
}.

(** Modelled from the spec: the state of [sequence.Buffer], absent from the
    sources.  "a write cursor into fixed-size preallocated arrays for
    observations/actions/rewards/discounts, plus the episode-start
    observation carried from the previous segment".  The carried
    observation is entry 0 of the observation array; [started] tells
    whether that entry holds the start of the current segment (it does
    not in a buffer that has recorded nothing yet). *)
Record Buffer : Type := {
  capacity : nat;
  cursor : nat;
  started : bool;
  buf_observations : list Tensor;
  buf_actions : list Action;
  buf_rewards : list F;
  buf_discounts : list F;
}.

(** Modelled from the spec: the constructor of [sequence.Buffer], absent
    from the sources.  "created once at agent construction with declared
    capacity"; the arrays are preallocated, one more observation than
    actions, rewards and discounts. *)
Definition Buffer_init (obs_spec : ArraySpec) (action_spec : DiscreteArraySpec)
    (max_sequence_length : nat) : Buffer :=
  {| capacity := max_sequence_length;
     cursor := 0;
     started := false;
     buf_observations :=
       replicate (S max_sequence_length) (jnp_zeros (spec_shape obs_spec));
     buf_actions := replicate max_sequence_length 0%Z;
     buf_rewards := replicate max_sequence_length fzero;
     buf_discounts := replicate max_sequence_length fzero |}.

(** Modelled from the spec: [Buffer.full], absent from the sources.
    "true when cursor has reached declared capacity". *)
Definition full (b : Buffer) : bool := Nat.eqb (cursor b) (capacity b).

(** Modelled from the spec: [Buffer.append], absent from the sources.
    "records one transition at the current cursor position; fails [...]
    if called when already full.  Side effect: cursor advances by one."
    The observation before the step opens the segment when no observation
    has been carried over; afterwards entry 0 is the carried one. *)
Definition append (b : Buffer) (timestep : TimeStep) (action : Action)
    (new_timestep : TimeStep) : result Buffer :=
  if full b then Raise (ValueError "Cannot append; sequence buffer is full.")
  else
    let t := cursor b in
    let obs0 :=
      if started b then buf_observations b
      else <[0 := observation timestep]> (buf_observations b) in
    Ok {| capacity := capacity b;
          cursor := S t;
          started := true;
          buf_observations := <[S t := observation new_timestep]> obs0;
          buf_actions := <[t := action]> (buf_actions b);
          buf_rewards := <[t := reward new_timestep]> (buf_rewards b);
          buf_discounts := <[t := discount new_timestep]> (buf_discounts b) |}.

(** Modelled from the spec: [Buffer.drain], absent from the sources.
    "returns the accumulated Trajectory (observations array sized
    cursor+1, actions/rewards/discounts sized cursor), then resets cursor
    to zero, carrying the most recent observation forward as the first
    observation of the next segment."  The carried observation opens
    the next segment, so the buffer counts as started afterwards. *)
Definition drain (b : Buffer) : Trajectory * Buffer :=
  let t := cursor b in
  let trajectory :=
    {| observations := take (S t) (buf_observations b);
       actions := take t (buf_actions b);
       rewards := take t (buf_rewards b);
       discounts := take t (buf_discounts b) |} in
  let carried :=
    match buf_observations b !! t with
    | Some o => <[0 := o]> (buf_observations b)
    | None => buf_observations b
    end in
  (trajectory,
   {| capacity := capacity b;
      cursor := 0;
      started := true;
      buf_observations := carried;
      buf_actions := buf_actions b;
      buf_rewards := buf_rewards b;
      buf_discounts := buf_discounts b |}).

(** A sequence of appends, stopping at the first failure. *)
Fixpoint appends (b : Buffer) (trs : list (TimeStep * Action * TimeStep))
    : result Buffer :=
  match trs with
  | [] => Ok b
  | (ts, a, nts) :: trs' => result_bind (append b ts a nts) (λ b', appends b' trs')
  end.

(** The arrays have their declared sizes and the cursor is within them. *)
Record wf (b : Buffer) : Prop := {
  wf_observations : length (buf_observations b) = S (capacity b);
  wf_actions : length (buf_actions b) = capacity b;
  wf_rewards : length (buf_rewards b) = capacity b;
  wf_discounts : length (buf_discounts b) = capacity b;
  wf_cursor : cursor b ≤ capacity b;
}.

(** The observation that opens the segment being recorded. *)
Definition segment_start (b : Buffer) : option Tensor := buf_observations b !! 0.

(** The observation recorded last. *)
Definition most_recent (b : Buffer) : option Tensor :=
  buf_observations b !! cursor b.
End Buffer.
End sequence.

(** ** The libraries the agent is built on

    jax, haiku, optax and rlax are not part of the repository.  Their types
    and entry points are the operations of this class; nothing is assumed
    about them. *)
Class Libraries `{Scalars} : Type := {
  (* parameter, gradient/update and optimizer-state pytrees *)
  Params : Type;
  Updates : Type;
  OptState : Type;
  (* [jax.random] keys and [hk.PRNGSequence] *)
  PRNGKey : Type;
  PRNGSequence : Type;
  (* [hk.PRNGSequence(seed)] *)
  PRNGSequence_new : Z → PRNGSequence;
  (* [next(rng)]: the key drawn and the sequence after the draw *)
  next : PRNGSequence → PRNGKey * PRNGSequence;
  (* [jax.random.categorical(key, logits)], one index per row of logits *)
  categorical : PRNGKey → list (list F) → list Z;
  (* [optax.apply_updates(params, updates)] *)
  apply_updates : Params → Updates → Params;
  (* [jax.grad(f)] for a loss [f] of parameters and trajectory *)
  jax_grad :
    (Params → sequence.Trajectory → F) → Params → sequence.Trajectory → Updates;
  (* [rlax.td_lambda(v_tm1, r_t, discount_t, v_t, lambda_)] *)
  rlax_td_lambda : list F → list F → list F → list F → F → list F;
  (* [rlax.policy_gradient_loss(logits_t, a_t, adv_t, w_t)] *)
  rlax_policy_gradient_loss : list (list F) → list Action → list F → list F → F;
}.

(** ** The actor-critic agent ([agent.py]) *)
Module agent.
Section ActorCritic.
Context `{Libraries}.
Import sequence.

(** [Logits], [Value]: arrays with a leading batch axis. *)
Definition Logits : Type := list (list F).
Definition Value : Type := list F.

(** [PolicyValueNet] under [hk.without_apply_rng(hk.transform(network))]:
    the pair of its [init] and [apply] functions. *)
Record PolicyValueNet : Type := {
  net_init : PRNGKey → list Tensor → Params;
  net_apply : Params → list Tensor → Logits * Value;
}.

(** [optax.GradientTransformation] *)
Record GradientTransformation : Type := {
  opt_init : Params → OptState;
  opt_update : Updates → OptState → Updates * OptState;
}.

Record TrainingState : Type := {
  params : Params;
  opt_state : OptState;
}.

(** The calls to rlax made while the loss is evaluated. *)
Inductive RlaxCall : Type :=
| call_td_lambda (v_tm1 r_t discount_t v_t : list F) (lambda_ : F)
| call_policy_gradient_loss
    (logits_t : Logits) (a_t : list Action) (adv_t w_t : list F).

(** The calls the agent makes to functions it was given or has jitted. *)
Inductive Call : Type :=
| call_init (key : PRNGKey) (dummy_observation : list Tensor)
| call_optimizer_init (initial_params : Params)
| call_forward (p : Params) (observation : list Tensor)
| call_categorical (key : PRNGKey) (logits : Logits)
| call_sgd_step (state : TrainingState) (trajectory : Trajectory).

(** The fields of an [ActorCritic] object that change over its life;
    [_forward] and [_sgd_step] are fixed at construction and are the
    functions of those names below. *)
Record ActorCritic : Type := {
  _state : TrainingState;
  _buffer : Buffer;
  _rng : PRNGSequence;
}.

(** The arguments of [__init__] that its closures capture. *)
Variable network : PolicyValueNet.
Variable optimizer : GradientTransformation.
Variable discount : F.
Variable td_lambda : F.

(** [td_lambda] and [policy_gradient_loss] of rlax, each call logged. *)
Definition td_lambda_ (v_tm1 r_t discount_t v_t : list F) (lambda_ : F)
    : Logged RlaxCall (list F) :=
  logged (call_td_lambda v_tm1 r_t discount_t v_t lambda_)
         (rlax_td_lambda v_tm1 r_t discount_t v_t lambda_).

Definition policy_gradient_loss_ (logits_t : Logits) (a_t : list Action)
    (adv_t w_t : list F) : Logged RlaxCall F :=
  logged (call_policy_gradient_loss logits_t a_t adv_t w_t)
         (rlax_policy_gradient_loss logits_t a_t adv_t w_t).

(** [loss], under [hk.transform]: the parameters are an argument. *)
Definition loss (p : Params) (trajectory : Trajectory) : Logged RlaxCall F :=
  let '(logits, values) := net_apply network p (observations trajectory) in
  td_errors ← td_lambda_
    (removelast values)
    (rewards trajectory)
    (map (λ d, fmul d discount) (discounts trajectory))
    (tail values)
    td_lambda;
  let critic_loss := jnp_mean (map (λ e, fpow e 2) td_errors) in
  actor_loss ← policy_gradient_loss_
    (removelast logits)
    (actions trajectory)
    td_errors
    (jnp_ones_like td_errors);
  mret (fadd actor_loss critic_loss).

(** [loss_fn = hk.without_apply_rng(hk.transform(loss)).apply] *)
Definition loss_fn (p : Params) (trajectory : Trajectory) : F :=
  (loss p trajectory).2.

(** The rlax calls of one evaluation of the loss. *)
Definition loss_calls (p : Params) (trajectory : Trajectory) : list RlaxCall :=
  (loss p trajectory).1.

Definition sgd_step (state : TrainingState) (trajectory : Trajectory)
    : TrainingState :=
  let gradients := jax_grad loss_fn (params state) trajectory in
  let '(updates, new_opt_state) := opt_update optimizer gradients (opt_state state) in
  let new_params := apply_updates (params state) updates in
  {| params := new_params; opt_state := new_opt_state |}.

(** [ActorCritic.__init__]: the calls made and the object built from
    [rng], which is advanced by the draw. *)
Definition ActorCritic_init (obs_spec : ArraySpec) (action_spec : DiscreteArraySpec)
    (rng : PRNGSequence) (sequence_length : nat) : list Call * ActorCritic :=
  let dummy_observation := jnp_zeros_batched 1 (spec_shape obs_spec) in
  let '(key, rng) := next rng in
  let initial_params := net_init network key dummy_observation in
  let initial_opt_state := opt_init optimizer initial_params in
  ([call_init key dummy_observation; call_optimizer_init initial_params],
   {| _state := {| params := initial_params; opt_state := initial_opt_state |};
      _buffer := Buffer_init obs_spec action_spec sequence_length;
      _rng := rng |}).

(** Access to the fields of [self]. *)
Definition next_rng : Prog ActorCritic Call PRNGKey :=
  λ self,
    let '(key, rng) := next (_rng self) in
    ([], Ok (key, {| _state := _state self; _buffer := _buffer self; _rng := rng |})).

Definition set_state (state : TrainingState) : Prog ActorCritic Call unit :=
  λ self,
    ([], Ok (tt, {| _state := state; _buffer := _buffer self; _rng := _rng self |})).

Definition set_buffer (b : Buffer) : Prog ActorCritic Call unit :=
  λ self,
    ([], Ok (tt, {| _state := _state self; _buffer := b; _rng := _rng self |})).

(** [self._forward(params, observation)] *)
Definition _forward (p : Params) (observation : list Tensor)
    : Prog ActorCritic Call (Logits * Value) :=
  tell (call_forward p observation) ;;
  mret (net_apply network p observation).

(** [jax.random.categorical(key, logits)] *)
Definition categorical_ (key : PRNGKey) (logits : Logits)
    : Prog ActorCritic Call (list Z) :=
  tell (call_categorical key logits) ;;
  mret (categorical key logits).

(** [self._sgd_step(state, trajectory)] *)
Definition _sgd_step (state : TrainingState) (trajectory : Trajectory)
    : Prog ActorCritic Call TrainingState :=
  tell (call_sgd_step state trajectory) ;;
  mret (sgd_step state trajectory).

(** [int(x.squeeze())] for a one-dimensional [x]: only an array of one
    element squeezes to a scalar, which [int] converts. *)
Definition int_squeeze (x : list Z) : result Z :=
  match x with
  | [a] => Ok a
  | _ => Raise (TypeError "Only scalar arrays can be converted to Python scalars")
  end.

Definition select_action (timestep : TimeStep) : Prog ActorCritic Call Action :=
  key ← next_rng;
  let observation := add_batch_axis (observation timestep) in
  self ← get;
  '(logits, _) ← _forward (params (_state self)) observation;
  action ← categorical_ key logits;
  lift (int_squeeze action).

(** The methods of [self._buffer], acting on the field. *)
Definition buffer_append (timestep : TimeStep) (action : Action)
    (new_timestep : TimeStep) : Prog ActorCritic Call unit :=
  self ← get;
  b ← lift (append (_buffer self) timestep action new_timestep);
  set_buffer b.

Definition buffer_full : Prog ActorCritic Call bool :=
  self ← get;
  mret (full (_buffer self)).

Definition buffer_drain : Prog ActorCritic Call Trajectory :=
  self ← get;
  let '(trajectory, b) := drain (_buffer self) in
  set_buffer b ;;
  mret trajectory.

Definition update (timestep : TimeStep) (action : Action) (new_timestep : TimeStep)
    : Prog ActorCritic Call unit :=
  buffer_append timestep action new_timestep ;;
  is_full ← buffer_full;
  if is_full || last new_timestep then
    trajectory ← buffer_drain;
    self ← get;
    state ← _sgd_step (_state self) trajectory;
    set_state state
  else mret tt.

(** The number of learning steps in a log. *)
Definition is_sgd_step (c : Call) : bool :=
  match c with call_sgd_step _ _ => true | _ => false end.

Definition learning_steps (log : list Call) : nat :=
  length (filter (λ c, is_sgd_step c = true) log).

(** The actions of a run, or the exception that ended it. *)
Definition actions_of {A} (out : list Call * result (A * ActorCritic)) : result A :=
  result_map fst out.2.


(** The buffer can take one more transition: it is well formed and its
    cursor is below its capacity. *)
Definition ready (self : ActorCritic) : Prop :=
  wf (_buffer self) ∧ cursor (_buffer self) < capacity (_buffer self).

(** [update] on each transition in turn. *)
Fixpoint updates (transitions : list (TimeStep * Action * TimeStep))
    : Prog ActorCritic Call unit :=
  match transitions with
  | [] => mret tt
  | (timestep, action, new_timestep) :: rest =>
      update timestep action new_timestep ;;
      updates rest
  end.

(** [select_action] on each timestep in turn; the actions chosen. *)
Fixpoint select_actions (timesteps : list TimeStep)
    : Prog ActorCritic Call (list Action) :=
  match timesteps with
  | [] => mret []
  | timestep :: rest =>
      action ← select_action timestep;
      actions ← select_actions rest;
      mret (action :: actions)
  end.
End ActorCritic.
End agent.

(** ** Strings *)

(** [s.replace(old, new)] for a non-empty [old]: occurrences are found from
    the left and do not overlap; [skip] counts the characters of an
    occurrence still to be dropped. *)
Fixpoint replace_from (old new : string) (skip : nat) (s : string) : string :=
  match s with
  | EmptyString => EmptyString
  | String c s' =>
      match skip with
      | S k => replace_from old new k s'
      | O =>
          if String.prefix old s
          then String.append new (replace_from old new (String.length old - 1) s')
          else String c (replace_from old new 0 s')
      end
  end.

(** With an empty [old], [new] goes before every character and at the end. *)
Fixpoint intersperse_all (new s : string) : string :=
  match s with
  | EmptyString => new
  | String c s' => String.append new (String c (intersperse_all new s'))
  end.

Definition str_replace (s old new : string) : string :=
  if String.eqb old "" then intersperse_all new s else replace_from old new 0 s.

(** ** The [sweep] module, as the sources see it

    [bsuite/sweep.py] is not among the sources; it is a parameter.  The
    sources read its attributes [SEPARATOR] (a string) and [SWEEP] (the
    tuple of the registered bsuite ids), test [hasattr(sweep, name)] and
    read [getattr(sweep, name)]; [sweep_attrs] holds its other attributes,
    among them the sweeps registered by name. *)
Record SweepModule : Type := {
  SEPARATOR : string;
  SWEEP : list string;
  sweep_attrs : gmap string PyVal;
}.

(** [getattr(sweep, name)], [None] when that raises [AttributeError]. *)
Definition sweep_getattr (sweep : SweepModule) (name : string) : option PyVal :=
  if String.eqb name "SEPARATOR" then Some (PyStr (SEPARATOR sweep))
  else if String.eqb name "SWEEP" then Some (PyTuple (SWEEP sweep))
  else sweep_attrs sweep !! name.

Definition sweep_hasattr (sweep : SweepModule) (name : string) : bool :=
  match sweep_getattr sweep name with Some _ => true | None => false end.

(** [getattr(sweep, name)] as an expression. *)
Definition sweep_getattr_result (sweep : SweepModule) (name : string) : result PyVal :=
  match sweep_getattr sweep name with
  | Some v => Ok v
  | None => Raise (AttributeError name)
  end.

(** A sweep registered under [name]: an attribute holding a tuple of ids. *)
Definition registered_sweep (sweep : SweepModule) (name : string) : Prop :=
  ∃ ids, sweep_getattr sweep name = Some (PyTuple ids).

(** ** The wandb logger ([wandb_logging.py]) *)
Module wandb_logging.
Definition SAFE_SEPARATOR : string := "-".
Definition INITIAL_SEPARATOR : string := "_-_".
Definition BSUITE_PREFIX : string := String.append "bsuite_id" INITIAL_SEPARATOR.

(** The keyword arguments of [wandb.init] that tell runs apart or that the
    logger passes; [None] for one that is not passed. *)
Record WandbInitKwargs : Type := {
  project : option string;
  entity : option string;
  group : option string;
  config : option (gmap string PyVal);
  tags : option (list string);
  reinit : option bool;
  name : option string;
  id : option string;
}.

Inductive WandbCall : Type :=
| wandb_init (kwargs : WandbInitKwargs)
| wandb_log (data : gmap string PyVal).

Section WandbLogger.
Variable sweep : SweepModule.

(** The two local variables of [__init__]. *)
Definition safe_bsuite_id (bsuite_id : string) : string :=
  str_replace bsuite_id (SEPARATOR sweep) SAFE_SEPARATOR.

Definition experiment_name (bsuite_id : string) : string :=
  String.append BSUITE_PREFIX (safe_bsuite_id bsuite_id).

(** [WandbLogger.__init__]: the object has no fields; the calls made. *)
Definition WandbLogger_init (bsuite_id project_name project_entity
    project_group : string) (project_config : option (gmap string PyVal))
    (project_tags : option (list string)) (overwrite : bool)
    : Logged WandbCall unit :=
  let safe_bsuite_id := str_replace bsuite_id (SEPARATOR sweep) SAFE_SEPARATOR in
  let experiment_name := String.append BSUITE_PREFIX safe_bsuite_id in
  logged
    (wandb_init {| project := Some project_name;
                   entity := Some project_entity;
                   group := Some project_group;
                   config := project_config;
                   tags := project_tags;
                   reinit := Some overwrite;
                   name := None;
                   id := None |})
    tt.

(** [WandbLogger.write] *)
Definition write (data : gmap string PyVal) : Logged WandbCall unit :=
  logged (wandb_log data) tt.
End WandbLogger.
End wandb_logging.

(** ** The driver ([run.py]) *)
Module run.
Inductive LoggingMode : Type := csv | sqlite | terminal | wandb.

(** [FLAGS] *)
Record Flags : Type := {
  bsuite_id : string;
  save_path : string;
  logging_mode : LoggingMode;
  overwrite : bool;
  num_episodes : option Z;
  verbose : bool;
  max_episode_length : Z;
  project_name : string;
  project_entity : string;
  project_group : string;
  project_tags : option (list string);
}.

(** What the driver reads of an environment: its two specs and its
    attributes by name. *)
Record Environment : Type := {
  observation_spec : ArraySpec;
  action_spec : DiscreteArraySpec;
  env_attrs : gmap string PyVal;
}.

(** [getattr(env, name)] without a default. *)
Definition getattr (env : Environment) (name : string) : result PyVal :=
  match env_attrs env !! name with
  | Some v => Ok v
  | None => Raise (AttributeError name)
  end.

(** The value of an integer flag: [None] or an [int]. *)
Definition flag_value (v : option Z) : PyVal :=
  match v with
  | Some z => PyInt z
  | None => PyNone
  end.

(** The [config] dictionary of [run_with_wandb_logging]. *)
Definition wandb_config (bsuite_id : string) (num_episodes : option Z)
    : gmap string PyVal :=
  <["bsuite_id" := PyStr bsuite_id]>
    (<["num_episodes" := flag_value num_episodes]>
       (<["policy_algo" := PyStr "actor_critic"]> ∅)).

(** The calls of the driver, in the order made. *)
Inductive DriverCall : Type :=
| call_load_and_record
    (bsuite_id save_path : string) (logging_mode : LoggingMode) (overwrite : bool)
| call_load_and_record_to_wandb
    (bsuite_id : string) (max_episode_length : Z)
    (project_name project_entity project_group : string)
    (project_config : gmap string PyVal) (project_tags : option (list string))
    (overwrite : bool)
| call_default_agent (obs_spec : ArraySpec) (action_spec : DiscreteArraySpec)
| call_experiment_run (environment : Environment) (num_episodes : PyVal)
    (verbose : bool)
| call_print (text : string) (value : PyVal)
| call_map_mpi (bsuite_sweep : PyVal).

(** An environment or an agent is being constructed by this call. *)
Definition constructs (c : DriverCall) : bool :=
  match c with
  | call_load_and_record _ _ _ _ => true
  | call_load_and_record_to_wandb _ _ _ _ _ _ _ _ => true
  | call_default_agent _ _ => true
  | _ => false
  end.

Section Driver.
Variable sweep : SweepModule.

(** [bsuite.load_and_record] and [bsuite.load_and_record_to_wandb] are
    not among the sources: the environment they return, or what they
    raise, is a parameter. *)
Variable load_and_record :
  string → string → LoggingMode → bool → result Environment.
Variable load_and_record_to_wandb :
  string → Z → string → string → string → gmap string PyVal →
  option (list string) → bool → result Environment.

(** [default_agent] builds the network with haiku and the optimizer
    with optax on the specs of the environment: whether that returns or
    raises for given specs, once the number of channels has been read, is
    theirs, a parameter. *)
Variable build_agent : ArraySpec → DiscreteArraySpec → result unit.

(** [pool.map_mpi(run, ids)] is not among the sources either: what it
    does with [run] and the iterable is a parameter. *)
Variable map_mpi :
  (string → Prog Flags DriverCall string) → PyVal → Prog Flags DriverCall unit.

Definition bsuite_load_and_record (bsuite_id save_path : string)
    (logging_mode : LoggingMode) (overwrite : bool)
    : Prog Flags DriverCall Environment :=
  tell (call_load_and_record bsuite_id save_path logging_mode overwrite) ;;
  lift (load_and_record bsuite_id save_path logging_mode overwrite).

Definition bsuite_load_and_record_to_wandb (bsuite_id : string)
    (max_episode_length : Z) (project_name project_entity project_group : string)
    (project_config : gmap string PyVal) (project_tags : option (list string))
    (overwrite : bool) : Prog Flags DriverCall Environment :=
  tell (call_load_and_record_to_wandb bsuite_id max_episode_length project_name
          project_entity project_group project_config project_tags overwrite) ;;
  lift (load_and_record_to_wandb bsuite_id max_episode_length project_name
          project_entity project_group project_config project_tags overwrite).

(** What [actor_critic.default_agent(obs_spec, action_spec)] returns or
    raises.  Its network function reads [obs_spec.shape[-1]] when the
    network is initialized inside [ActorCritic.__init__]: an empty shape
    is an [IndexError]; otherwise the construction goes on in haiku and
    optax.  The agent itself is not inspected by the driver. *)
Definition agent_outcome (obs_spec : ArraySpec) (action_spec : DiscreteArraySpec)
    : result unit :=
  match list.last (spec_shape obs_spec) with
  | None => Raise (IndexError "tuple index out of range")
  | Some num_channels => build_agent obs_spec action_spec
  end.

(** [actor_critic.default_agent(obs_spec, action_spec)] *)
Definition default_agent (obs_spec : ArraySpec) (action_spec : DiscreteArraySpec)
    : Prog Flags DriverCall unit :=
  tell (call_default_agent obs_spec action_spec) ;;
  lift (agent_outcome obs_spec action_spec).

(** [experiment.run(agent, environment, num_episodes, verbose)] *)
Definition experiment_run (agent : unit) (environment : Environment)
    (num_episodes : PyVal) (verbose : bool) : Prog Flags DriverCall unit :=
  tell (call_experiment_run environment num_episodes verbose).

Definition print (text : string) (value : PyVal) : Prog Flags DriverCall unit :=
  tell (call_print text value).

Definition run (bsuite_id : string) : Prog Flags DriverCall string :=
  FLAGS ← get;
  env ← bsuite_load_and_record
    bsuite_id (save_path FLAGS) (logging_mode FLAGS) (overwrite FLAGS);
  agent ← default_agent (observation_spec env) (action_spec env);
  num_episodes ← lift (py_or (flag_value (num_episodes FLAGS))
                             (getattr env "bsuite_num_episodes"));
  FLAGS ← get;
  experiment_run agent env num_episodes (verbose FLAGS) ;;
  mret bsuite_id.

Definition run_with_wandb_logging (bsuite_id : string)
    : Prog Flags DriverCall unit :=
  FLAGS ← get;
  let config := wandb_config bsuite_id (num_episodes FLAGS) in
  env ← bsuite_load_and_record_to_wandb
    bsuite_id (max_episode_length FLAGS) (project_name FLAGS)
    (project_entity FLAGS) (project_group FLAGS) config (project_tags FLAGS)
    (overwrite FLAGS);
  agent ← default_agent (observation_spec env) (action_spec env);
  num_episodes ← lift (py_or (flag_value (num_episodes FLAGS))
                             (getattr env "bsuite_num_episodes"));
  FLAGS ← get;
  experiment_run agent env num_episodes (verbose FLAGS).

(** [pool.map_mpi(run, bsuite_sweep)] *)
Definition pool_map_mpi (bsuite_sweep : PyVal) : Prog Flags DriverCall unit :=
  tell (call_map_mpi bsuite_sweep) ;;
  map_mpi run bsuite_sweep.

(** [FLAGS.verbose = False] *)
Definition set_verbose (v : bool) : Prog Flags DriverCall unit :=
  FLAGS ← get;
  put {| bsuite_id := bsuite_id FLAGS;
         save_path := save_path FLAGS;
         logging_mode := logging_mode FLAGS;
         overwrite := overwrite FLAGS;
         num_episodes := num_episodes FLAGS;
         verbose := v;
         max_episode_length := max_episode_length FLAGS;
         project_name := project_name FLAGS;
         project_entity := project_entity FLAGS;
         project_group := project_group FLAGS;
         project_tags := project_tags FLAGS |}.

Definition is_wandb (m : LoggingMode) : bool :=
  match m with wandb => true | _ => false end.

Definition main : Prog Flags DriverCall unit :=
  FLAGS ← get;
  let bsuite_id := bsuite_id FLAGS in
  if bool_decide (bsuite_id ∈ SWEEP sweep) then
    print "Running single experiment: bsuite_id={bsuite_id}." (PyStr bsuite_id) ;;
    if is_wandb (logging_mode FLAGS) then run_with_wandb_logging bsuite_id
    else run bsuite_id ;; mret tt
  else if sweep_hasattr sweep bsuite_id then
    bsuite_sweep ← lift (sweep_getattr_result sweep bsuite_id);
    print "Running sweep over bsuite_id in sweep.{bsuite_sweep}" bsuite_sweep ;;
    set_verbose false ;;
    pool_map_mpi bsuite_sweep
  else
    raise (ValueError (String.append "Invalid flag: bsuite_id="
                         (String.append bsuite_id "."))).
End Driver.
End run.

(** ** A small concrete instance

    Exact rational arithmetic for the scalars, a counter for the random
    sequence, a one-weight network and a plain gradient step: enough to run
    every definition above on concrete inputs. *)
Module Toy.
Import sequence agent run.

Definition Qsum (l : list Q) : Q := foldr Qplus 0%Q l.

#[export] Instance Q_scalars : Scalars := {|
  F := Q;
  fzero := 0%Q;
  fone := 1%Q;
  fadd := Qplus;
  fmul := Qmult;
  fpow := Qpower;
  jnp_mean := λ l, Qdiv (Qsum l) (inject_Z (Z.of_nat (length l)));
|}.

(** One-step temporal-difference errors: [r + discount * v_t - v_tm1]. *)
Fixpoint td0 (v_tm1 r_t discount_t v_t : list Q) : list Q :=
  match v_tm1, r_t, discount_t, v_t with
  | v :: v_tm1', r :: r_t', d :: discount_t', v' :: v_t' =>
      Qminus (Qplus r (Qmult d v')) v :: td0 v_tm1' r_t' discount_t' v_t'
  | _, _, _, _ => []
  end.

#[export] Instance toy_libraries : Libraries := {|
  Params := Q;
  Updates := Q;
  OptState := nat;
  PRNGKey := Z;
  PRNGSequence := Z;
  PRNGSequence_new := λ seed, seed;
  next := λ s, ((s * 5 + 3) mod 16, (s * 5 + 3) mod 16)%Z;
  categorical := λ key logits, map (λ row : list Q, (key mod Z.of_nat (length row))%Z) logits;
  apply_updates := Qplus;
  jax_grad := λ f p trajectory, Qminus (f (Qplus p 1) trajectory) (f p trajectory);
  rlax_td_lambda := λ v_tm1 r_t discount_t v_t lambda_, td0 v_tm1 r_t discount_t v_t;
  rlax_policy_gradient_loss := λ logits_t a_t adv_t w_t,
    Qopp (Qsum (zip_with Qmult adv_t w_t));
|}.

Definition toy_network : PolicyValueNet := {|
  net_init := λ key dummy_observation, inject_Z key;
  net_apply := λ p obs,
    (map (λ o : Tensor, [p; Qplus p 1; Qsum (data o)]) obs,
     map (λ o : Tensor, Qmult p (Qsum (data o))) obs);
|}.

Definition toy_optimizer : GradientTransformation := {|
  opt_init := λ _, O;
  opt_update := λ gradients count, (Qopp (Qmult (1 # 10) gradients), S count);
|}.

Definition obs (x y : Q) : Tensor := {| shape := [2]; data := [x; y] |}.

Definition step (st : StepType) (r d : Q) (o : Tensor) : TimeStep :=
  {| step_type := st; reward := r; discount := d; observation := o |}.

Definition toy_obs_spec : ArraySpec := {| spec_shape := [2] |}.
Definition toy_action_spec : DiscreteArraySpec := {| num_values := 3 |}.

(** An agent with a buffer of two transitions. *)
Definition toy_agent : ActorCritic :=
  (ActorCritic_init toy_network toy_optimizer toy_obs_spec toy_action_spec
     (PRNGSequence_new 7) 2).2.

(** A buffer of capacity two that holds one transition. *)
Definition toy_buffer : Buffer := {|
  capacity := 2;
  cursor := 1;
  started := true;
  buf_observations := [obs 1 2; obs 3 4; obs 0 0];
  buf_actions := [1; 0]%Z;
  buf_rewards := [1; 0]%Q;
  buf_discounts := [1; 0]%Q;
|}.

(** The same agent after other transitions: another buffer and optimizer
    state, the same parameters and random sequence. *)
Definition toy_agent_later : ActorCritic := {|
  _state := {| params := params (_state toy_agent); opt_state := 5 |};
  _buffer := toy_buffer;
  _rng := _rng toy_agent;
|}.

Definition toy_trajectory : Trajectory := {|
  observations := [obs 1 2; obs 3 4; obs 5 6; obs 7 8];
  actions := [0; 2; 1]%Z;
  rewards := [1; 0; 1]%Q;
  discounts := [1; 1; 1]%Q;
|}.

Definition toy_sweep : SweepModule := {|
  SEPARATOR := "/";
  SWEEP := ["catch/0"; "catch/1"];
  sweep_attrs := <["CATCH" := PyTuple ["catch/0"; "catch/1"]]> ∅;
|}.

Definition toy_env : Environment := {|
  observation_spec := toy_obs_spec;
  action_spec := toy_action_spec;
  env_attrs := <["bsuite_num_episodes" := PyInt 10000]> ∅;
|}.

Definition toy_load_and_record (bsuite_id save_path : string)
    (mode : LoggingMode) (overwrite : bool) : result Environment :=
  if bool_decide (bsuite_id ∈ SWEEP toy_sweep) then Ok toy_env
  else Raise (KeyError bsuite_id).

Definition toy_load_and_record_to_wandb (bsuite_id : string) (len : Z)
    (project entity group : string) (config : gmap string PyVal)
    (tags : option (list string)) (overwrite : bool) : result Environment :=
  if bool_decide (bsuite_id ∈ SWEEP toy_sweep) then Ok toy_env
  else Raise (KeyError bsuite_id).

(** Building the agent fails for an environment without actions. *)
Definition toy_build_agent (obs_spec : ArraySpec) (action_spec : DiscreteArraySpec)
    : result unit :=
  if Nat.eqb (num_values action_spec) 0
  then Raise (ValueError "no actions")
  else Ok tt.

(** An environment whose observations are scalars. *)
Definition toy_scalar_env : Environment := {|
  observation_spec := {| spec_shape := [] |};
  action_spec := toy_action_spec;
  env_attrs := <["bsuite_num_episodes" := PyInt 10000]> ∅;
|}.

(** Iterating over a value: a tuple yields its items, a string its
    characters. *)
Definition iterate (v : PyVal) : result (list string) :=
  match v with
  | PyTuple items => Ok items
  | PyStr s => Ok (map (λ c, String c EmptyString) (String.list_ascii_of_string s))
  | _ => Raise (TypeError "object is not iterable")
  end.

(** A sweep runner that calls [run] on each identifier in turn. *)
Fixpoint run_each (run : string → Prog Flags DriverCall string) (ids : list string)
    : Prog Flags DriverCall unit :=
  match ids with
  | [] => mret tt
  | id :: ids' => run id ;; run_each run ids'
  end.

Definition toy_map_mpi (run : string → Prog Flags DriverCall string)
    (bsuite_sweep : PyVal) : Prog Flags DriverCall unit :=
  ids ← lift (iterate bsuite_sweep);
  run_each run ids.

Definition toy_flags (bsuite_id : string) (num_episodes : option Z) : Flags := {|
  run.bsuite_id := bsuite_id;
  save_path := "/tmp/bsuite";
  logging_mode := wandb;
  overwrite := false;
  run.num_episodes := num_episodes;
  verbose := true;
  max_episode_length := 1000;
  project_name := "rl-with-ts-obs";
  project_entity := "bolling-adrien";
  project_group := "ts-bsuite";
  project_tags := None;
|}.
End Toy.

(** ** The remaining functions of the sources *)

(** Characters of a string, and a string with every character mapped. *)
Definition chars (s : string) : list Ascii.ascii := String.list_ascii_of_string s.

Fixpoint map_string (f : Ascii.ascii → Ascii.ascii) (s : string) : string :=
  match s with
  | EmptyString => EmptyString
  | String c s' => String (f c) (map_string f s')
  end.

(** The character [-]. *)
Definition dash : Ascii.ascii := Ascii.ascii_of_nat 45.

(** The character [d] wherever [c] stands. *)
Definition subst_char (c d : Ascii.ascii) (a : Ascii.ascii) : Ascii.ascii :=
  if Ascii.eqb c a then d else a.

Module wandb_more.
Import wandb_logging.
Section Logger.
Variable sweep : SweepModule.

(** [logger.write(data)] for each record in turn. *)
Fixpoint writes (records : list (gmap string PyVal)) : Logged WandbCall unit :=
  match records with
  | [] => mret tt
  | data :: rest => write data ;; writes rest
  end.

(** [wrappers.Logging] is not among the sources: the environment it
    returns from the environment, the logger and [log_by_step] is a
    parameter.  The logger object has no fields. *)
Variable Env WrappedEnv : Type.
Variable Logging : Env → unit → bool → WrappedEnv.

Definition wrap_environment (env : Env) (bsuite_id project_name project_entity
    project_group : string) (project_config : option (gmap string PyVal))
    (project_tags : option (list string)) (overwrite log_by_step : bool)
    : Logged WandbCall WrappedEnv :=
  logger ← WandbLogger_init sweep bsuite_id project_name project_entity
              project_group project_config project_tags overwrite;
  mret (Logging env logger log_by_step).
End Logger.
End wandb_more.

Module run_more.
Import run.

(** The flags after [FLAGS.verbose = False]. *)
Definition clear_verbose (FLAGS : Flags) : Flags :=
  {| bsuite_id := bsuite_id FLAGS;
     save_path := save_path FLAGS;
     logging_mode := logging_mode FLAGS;
     overwrite := overwrite FLAGS;
     num_episodes := num_episodes FLAGS;
     verbose := false;
     max_episode_length := max_episode_length FLAGS;
     project_name := project_name FLAGS;
     project_entity := project_entity FLAGS;
     project_group := project_group FLAGS;
     project_tags := project_tags FLAGS |}.


(** The [num_episodes] argument of the [experiment.run] calls of a log. *)
Definition episodes_run (log : list DriverCall) : list PyVal :=
  omap (λ c, match c with
             | call_experiment_run _ n _ => Some n
             | _ => None
             end) log.
End run_more.

Module agent_more.
Import sequence agent.
Section Agent.
Context `{Libraries}.

(** The trajectories of the learning steps of a log, in order. *)
Definition trajectories (log : list Call) : list Trajectory :=
  omap (λ c, match c with
             | call_sgd_step _ trajectory => Some trajectory
             | _ => None
             end) log.

(** No transition ends an episode. *)
Definition non_terminal (transitions : list (TimeStep * Action * TimeStep)) : Prop :=
  Forall (λ tr, last tr.2 = false) transitions.

(** A trajectory of [n] transitions: one more observation than actions,
    rewards and discounts. *)
Definition trajectory_of_length (n : nat) (trajectory : Trajectory) : Prop :=
  length (observations trajectory) = S n
  ∧ length (actions trajectory) = n
  ∧ length (rewards trajectory) = n
  ∧ length (discounts trajectory) = n.

(** The lengths of the arrays handed to an rlax call. *)
Definition call_lengths (c : RlaxCall) : list nat :=
  match c with
  | call_td_lambda v_tm1 r_t discount_t v_t _ =>
      [length v_tm1; length r_t; length discount_t; length v_t]
  | call_policy_gradient_loss logits_t a_t adv_t w_t =>
      [length logits_t; length a_t; length adv_t; length w_t]
  end.
End Agent.
End agent_more.

Module ToyMore.
Import sequence agent Toy.

(** The character [/]. *)
Definition slash : Ascii.ascii := Ascii.ascii_of_nat 47.

(** Transitions that do not end the episode. *)
Definition toy_transitions : list (TimeStep * Action * TimeStep) :=
  [(step FIRST 0 1 (obs 1 2), 1%Z, step MID 1 1 (obs 3 4));
   (step MID 1 1 (obs 3 4), 0%Z, step MID 0 1 (obs 5 6));
   (step MID 0 1 (obs 5 6), 2%Z, step MID 1 1 (obs 7 8))].
End ToyMore.

(** * Properties *)

(** ** The trajectory buffer *)
Section BufferFacts.
Context `{Scalars}.
Import sequence.


Lemma Buffer_init_wf obs_spec action_spec n : wf (Buffer_init obs_spec action_spec n).
Proof. split; simpl; rewrite ?length_replicate; lia. Qed.

Lemma full_iff b : full b = true ↔ cursor b = capacity b.
Proof. unfold full. apply Nat.eqb_eq. Qed.

Lemma append_Ok b ts a nts :
  full b = false →
  ∃ b', append b ts a nts = Ok b' ∧ cursor b' = S (cursor b)
        ∧ capacity b' = capacity b ∧ started b' = true.
Proof. intros Hf. unfold append. rewrite Hf. eauto. Qed.

Lemma append_inv b ts a nts b' :
  append b ts a nts = Ok b' →
  full b = false ∧ cursor b' = S (cursor b) ∧ capacity b' = capacity b
  ∧ started b' = true.
Proof.
  unfold append. destruct (full b); [discriminate |].
  intros [= <-]. auto.
Qed.

Lemma append_wf b ts a nts b' : wf b → append b ts a nts = Ok b' → wf b'.
Proof.
  intros [Ho Ha Hr Hd Hc] Happ. unfold append in Happ.
  destruct (full b) eqn:Hf; [discriminate |]. injection Happ as <-.
  apply Nat.eqb_neq in Hf.
  split; simpl; rewrite ?length_insert; try done.
  - destruct (started b); rewrite ?length_insert; done.
  - lia.
Qed.

Lemma append_segment_start b ts a nts b' :
  started b = true → append b ts a nts = Ok b' →
  segment_start b' = segment_start b.
Proof.
  intros Hs Happ. unfold append in Happ. rewrite Hs in Happ.
  destruct (full b); [discriminate |]. injection Happ as <-.
  unfold segment_start. simpl. by rewrite list_lookup_insert_ne.
Qed.

Lemma appends_segment_start trs : ∀ b b',
  started b = true → appends b trs = Ok b' →
  segment_start b' = segment_start b ∧ started b' = true.
Proof.
  induction trs as [| [[ts a] nts] trs IH]; intros b b' Hs Happ; simpl in Happ.
  - by injection Happ as <-.
  - destruct (append b ts a nts) as [b1 |] eqn:H1; [| discriminate].
    simpl in Happ.
    destruct (append_inv _ _ _ _ _ H1) as (_ & _ & _ & Hs1).
    destruct (IH _ _ Hs1 Happ) as [-> Hs'].
    split; [| done]. by eapply append_segment_start.
Qed.

Lemma appends_wf trs : ∀ b b', wf b → appends b trs = Ok b' → wf b'.
Proof.
  induction trs as [| [[ts a] nts] trs IH]; intros b b' Hwf Happ; simpl in Happ.
  - by injection Happ as <-.
  - destruct (append b ts a nts) as [b1 |] eqn:H1; [| discriminate].
    eapply IH; [| exact Happ]. by eapply append_wf.
Qed.

Lemma drain_wf b : wf b → wf (drain b).2.
Proof.
  intros [Ho Ha Hr Hd Hc]. split; simpl; try done; try lia.
  destruct (buf_observations b !! cursor b); rewrite ?length_insert; done.
Qed.

Lemma most_recent_is_Some b : wf b → is_Some (most_recent b).
Proof.
  intros [Ho _ _ _ Hc]. unfold most_recent.
  apply lookup_lt_is_Some. lia.
Qed.

Lemma drain_segment_start b : wf b → segment_start (drain b).2 = most_recent b.
Proof.
  intros Hwf. destruct (most_recent_is_Some b Hwf) as [o Ho].
  unfold segment_start, most_recent in *. simpl. rewrite Ho.
  apply list_lookup_insert_eq. destruct Hwf as [Hlen _ _ _ _]. lia.
Qed.

Lemma drain_head b : head (observations (drain b).1) = segment_start b.
Proof.
  unfold segment_start. simpl. by destruct (buf_observations b).
Qed.

Lemma drain_last b : wf b → list.last (observations (drain b).1) = most_recent b.
Proof.
  intros [Ho _ _ _ Hc]. unfold most_recent. simpl.
  rewrite last_lookup, length_take, Ho.
  replace (Nat.pred (S (cursor b) `min` S (capacity b))) with (cursor b) by lia.
  apply lookup_take_lt. lia.
Qed.

(** C8. Draining a buffer whose cursor is [c] returns a trajectory with
    [c + 1] observations and [c] actions, rewards and discounts, whatever
    [c] is between 0 and the capacity (full or not); the cursor is back at
    zero; and the observation recorded last opens the next segment: it is
    the last observation of the drained trajectory and the first one of
    the trajectory drained next, whatever is appended in between. *)
Theorem drain_trajectory_and_reset (b : Buffer) :
  wf b →
  let '(trajectory, b') := drain b in
  length (observations trajectory) = S (cursor b)
  ∧ length (actions trajectory) = cursor b
  ∧ length (rewards trajectory) = cursor b
  ∧ length (discounts trajectory) = cursor b
  ∧ cursor b' = 0
  ∧ capacity b' = capacity b
  ∧ wf b'
  ∧ is_Some (most_recent b)
  ∧ list.last (observations trajectory) = most_recent b
  ∧ segment_start b' = most_recent b
  ∧ ∀ trs b2, appends b' trs = Ok b2 →
      head (observations (drain b2).1) = most_recent b.
Proof.
  intros Hwf.
  pose proof (drain_wf b Hwf) as Hwf'.
  pose proof (drain_last b Hwf) as Hlast.
  pose proof (drain_segment_start b Hwf) as Hstart.
  pose proof (most_recent_is_Some b Hwf) as Hsome.
  destruct (drain b) as [trajectory b'] eqn:Hd.
  unfold drain in Hd. injection Hd as <- <-.
  destruct Hwf as [Ho Ha Hr Hdi Hc].
  simpl in *. rewrite !length_take.
  do 10 (split; [first [lia | done] |]).
  intros trs b2 Happ. etrans; [apply drain_head |].
  etrans; [| exact Hstart].
  by apply (appends_segment_start trs _ b2).
Qed.
End BufferFacts.

(** ** The agent *)
Section AgentFacts.
Context `{Libraries}.
Import sequence agent.

Variable network : PolicyValueNet.
Variable optimizer : GradientTransformation.
Variable discount : F.
Variable td_lambda : F.

Ltac run_prog :=
  unfold update, select_action, buffer_append, buffer_full, buffer_drain,
    _sgd_step, _forward, categorical_, next_rng, set_state, set_buffer;
  unfold mbind, Prog_bind, bind, mret, Prog_ret, ret, get, put, tell, lift, raise;
  cbn [fst snd app].

Lemma ready_not_full self : ready self → full (_buffer self) = false.
Proof. intros [_ Hlt]. unfold full. apply Nat.eqb_neq. lia. Qed.

(** [update], as one equation. *)
Lemma update_eq (self : ActorCritic) timestep action new_timestep b :
  append (_buffer self) timestep action new_timestep = Ok b →
  update network optimizer discount td_lambda timestep action new_timestep self =
    if full b || last new_timestep then
      ([call_sgd_step (_state self) (drain b).1],
       Ok (tt, {| _state := sgd_step network optimizer discount td_lambda
                              (_state self) (drain b).1;
                  _buffer := (drain b).2;
                  _rng := _rng self |}))
    else ([], Ok (tt, {| _state := _state self; _buffer := b; _rng := _rng self |})).
Proof.
  intros Happ. run_prog. rewrite Happ. cbn.
  destruct (full b || last new_timestep); reflexivity.
Qed.

Lemma update_raises_when_full (self : ActorCritic) timestep action new_timestep :
  full (_buffer self) = true →
  ∃ e, update network optimizer discount td_lambda timestep action new_timestep self
       = ([], Raise e).
Proof.
  intros Hf. run_prog. unfold append. rewrite Hf. cbn. eauto.
Qed.

Lemma ActorCritic_init_ready obs_spec action_spec rng sequence_length :
  0 < sequence_length →
  ready (ActorCritic_init network optimizer obs_spec action_spec rng sequence_length).2.
Proof.
  intros Hpos. unfold ActorCritic_init. destruct (next rng) as [key rng'].
  split; simpl; [apply Buffer_init_wf | done].
Qed.

Lemma update_ready (self : ActorCritic) timestep action new_timestep :
  ready self →
  ∃ log self',
    update network optimizer discount td_lambda timestep action new_timestep self
      = (log, Ok (tt, self'))
    ∧ ready self'.
Proof.
  intros [Hwf Hlt].
  destruct (append_Ok (_buffer self) timestep action new_timestep)
    as (b & Happ & Hc & Hcap & _).
  { apply Nat.eqb_neq. lia. }
  pose proof (append_wf _ _ _ _ _ Hwf Happ) as Hwfb.
  rewrite (update_eq _ _ _ _ _ Happ).
  destruct (full b || last new_timestep) eqn:Hlearn.
  - eexists _, _. split; [reflexivity |]. split; simpl.
    + by apply drain_wf.
    + lia.
  - eexists _, _. split; [reflexivity |]. split; simpl; [done |].
    apply orb_false_elim in Hlearn as [Hf _].
    apply Nat.eqb_neq in Hf. destruct Hwfb. lia.
Qed.

(** From a ready agent, every update of a sequence returns. *)
Lemma updates_ready transitions : ∀ self,
  ready self →
  ∃ log self',
    updates network optimizer discount td_lambda transitions self
      = (log, Ok (tt, self'))
    ∧ ready self'.
Proof.
  induction transitions as [| [[ts a] nts] rest IH]; intros self Hr.
  - by exists [], self.
  - destruct (update_ready self ts a nts Hr) as (l1 & s1 & H1 & Hr1).
    destruct (IH s1 Hr1) as (l2 & s2 & H2 & Hr2).
    exists (l1 ++ l2), s2. split; [| done].
    cbn [updates]. unfold mbind, Prog_bind, bind. by rewrite H1, H2.
Qed.

(** C1, as amended. A call of [update] on an agent whose buffer is not full
    on entry appends the transition; it makes exactly one learning step, on
    the drained trajectory, replacing the Training State by the result of
    the SGD step, if and only if the buffer is full after the append or the
    new timestep is the last of its episode; otherwise it makes none and
    leaves the Training State as it was. *)
Theorem update_learning_step (self : ActorCritic) timestep action new_timestep :
  full (_buffer self) = false →
  ∃ b log self',
    append (_buffer self) timestep action new_timestep = Ok b
    ∧ update network optimizer discount td_lambda timestep action new_timestep self
      = (log, Ok (tt, self'))
    ∧ _rng self' = _rng self
    ∧ learning_steps log ≤ 1
    ∧ (learning_steps log = 1 ↔ full b = true ∨ last new_timestep = true)
    ∧ (full b = true ∨ last new_timestep = true →
       log = [call_sgd_step (_state self) (drain b).1]
       ∧ _state self' = sgd_step network optimizer discount td_lambda
                          (_state self) (drain b).1
       ∧ _buffer self' = (drain b).2)
    ∧ (¬ (full b = true ∨ last new_timestep = true) →
       log = [] ∧ _state self' = _state self ∧ _buffer self' = b).
Proof.
  intros Hnf.
  destruct (append_Ok (_buffer self) timestep action new_timestep Hnf)
    as (b & Happ & _).
  exists b. rewrite (update_eq _ _ _ _ _ Happ).
  destruct (full b || last new_timestep) eqn:Hlearn.
  - eexists _, _. split; [done |]. split; [reflexivity |].
    apply orb_true_iff in Hlearn. cbn.
    split_and!; try done; try lia; by intros [].
  - eexists _, _. split; [done |]. split; [reflexivity |].
    apply orb_false_iff in Hlearn as [Hf Hl]. cbn.
    split_and!; try done; try lia;
      first [ intros [? | ?]; congruence
            | split; [discriminate | intros [? | ?]; congruence] ].
Qed.
(** [select_action], as one equation. *)
Lemma select_action_eq (self : ActorCritic) timestep :
  select_action network timestep self =
    let key := (next (_rng self)).1 in
    let p := params (_state self) in
    let observation := [observation timestep] in
    let logits := (net_apply network p observation).1 in
    ([call_forward p observation; call_categorical key logits],
     match int_squeeze (categorical key logits) with
     | Ok action =>
         Ok (action, {| _state := _state self;
                        _buffer := _buffer self;
                        _rng := (next (_rng self)).2 |})
     | Raise e => Raise e
     end).
Proof.
  run_prog. destruct (next (_rng self)) as [key rng'] eqn:Hn. cbn.
  unfold add_batch_axis.
  destruct (net_apply network (params (_state self)) [observation timestep])
    as [logits values]. cbn.
  destruct (int_squeeze (categorical key logits)); reflexivity.
Qed.

Lemma int_squeeze_singleton (x : list Z) :
  length x = 1 → ∃ a, x = [a] ∧ int_squeeze x = Ok a.
Proof.
  destruct x as [| a [| ? ?]]; try discriminate. intros _. by exists a.
Qed.

(** C5. On a single observation, for a network that returns one row of
    logits per observation and a sampler that returns one index per row,
    [select_action] returns an integer action index; the Training State and
    the buffer are as before, no learning step is made, and the random
    sequence has advanced by exactly one draw. *)
Theorem select_action_frame (self : ActorCritic) timestep :
  (∀ p obs, length (net_apply network p obs).1 = length obs) →
  (∀ key logits, length (categorical key logits) = length logits) →
  ∃ (action : Z) log self',
    select_action network timestep self = (log, Ok (action, self'))
    ∧ categorical (next (_rng self)).1
        (net_apply network (params (_state self)) [observation timestep]).1
      = [action]
    ∧ _state self' = _state self
    ∧ _buffer self' = _buffer self
    ∧ _rng self' = (next (_rng self)).2
    ∧ learning_steps log = 0.
Proof.
  intros Hnet Hcat. rewrite select_action_eq. cbn zeta.
  destruct (int_squeeze_singleton
              (categorical (next (_rng self)).1
                 (net_apply network (params (_state self)) [observation timestep]).1))
    as (a & Ha & Hint).
  { by rewrite Hcat, Hnet. }
  rewrite Hint. eexists a, _, _. split; [reflexivity |]. by rewrite Ha.
Qed.

(** C6. Two runs of [select_action] over timesteps with the same
    observations, from agents with the same random sequence and the same
    parameters, choose the same actions (or stop with the same exception),
    whatever else differs between the agents and the timesteps. *)
Theorem select_actions_deterministic (timesteps1 timesteps2 : list TimeStep) :
  ∀ self1 self2 : ActorCritic,
  _rng self1 = _rng self2 →
  params (_state self1) = params (_state self2) →
  map observation timesteps1 = map observation timesteps2 →
  actions_of (select_actions network timesteps1 self1)
  = actions_of (select_actions network timesteps2 self2).
Proof.
  revert timesteps2.
  induction timesteps1 as [| ts1 rest1 IH]; intros [| ts2 rest2] self1 self2
    Hrng Hparams Hobs; try discriminate; [reflexivity |].
  injection Hobs as Hobs1 Hrest.
  cbn [select_actions]. unfold mbind, Prog_bind, bind.
  rewrite !select_action_eq. cbn zeta.
  rewrite <- Hrng, <- Hparams, <- Hobs1.
  destruct (int_squeeze _) as [action | e]; [| reflexivity].
  specialize (IH rest2
    {| _state := _state self1; _buffer := _buffer self1; _rng := (next (_rng self1)).2 |}
    {| _state := _state self2; _buffer := _buffer self2; _rng := (next (_rng self1)).2 |}
    eq_refl Hparams Hrest).
  unfold actions_of, result_map, result_bind in *.
  destruct (select_actions network rest1 _) as [l1 [[a1 s1] | e1]];
    destruct (select_actions network rest2 _) as [l2 [[a2 s2] | e2]];
    cbn in *; congruence.
Qed.

(** C7. [__init__] draws one key from the supplied random sequence, calls
    the network initializer once, on a batch of one all-zero observation of
    the shape of the observation spec, then the optimizer initializer once,
    on the parameters obtained; the initial Training State is the pair of
    the two results. *)
Theorem ActorCritic_init_state obs_spec action_spec rng sequence_length :
  let '(log, self) :=
    ActorCritic_init network optimizer obs_spec action_spec rng sequence_length in
  let key := (next rng).1 in
  let dummy_observation := [jnp_zeros (spec_shape obs_spec)] in
  let initial_params := net_init network key dummy_observation in
  log = [call_init key dummy_observation; call_optimizer_init initial_params]
  ∧ _state self = {| params := initial_params;
                     opt_state := opt_init optimizer initial_params |}
  ∧ _rng self = (next rng).2
  ∧ shape (jnp_zeros (spec_shape obs_spec)) = spec_shape obs_spec
  ∧ Forall (λ x, x = fzero) (data (jnp_zeros (spec_shape obs_spec))).
Proof.
  unfold ActorCritic_init. destruct (next rng) as [key rng']. cbn.
  split_and!; try reflexivity.
  apply Forall_forall. intros x Hx. by apply elem_of_replicate in Hx as [-> _].
Qed.


(** C3. The loss whose gradient the learning step takes is the plain sum of
    the actor loss and the critic loss: the critic loss is the mean of the
    squared TD-lambda errors, and the actor loss is the policy-gradient loss
    of the logits without the last timestep, the actions of the trajectory,
    the TD-lambda errors as advantages and weights that are all 1. *)
Theorem loss_is_actor_plus_critic (state : TrainingState) (trajectory : Trajectory) :
  let p := params state in
  let '(logits, values) := net_apply network p (observations trajectory) in
  let td_errors :=
    rlax_td_lambda (removelast values) (rewards trajectory)
      (map (λ d, fmul d discount) (discounts trajectory)) (tail values) td_lambda in
  let critic_loss := jnp_mean (map (λ e, fpow e 2) td_errors) in
  let w_t := replicate (length td_errors) fone in
  let actor_loss :=
    rlax_policy_gradient_loss (removelast logits) (actions trajectory) td_errors w_t in
  loss_fn network discount td_lambda p trajectory = fadd actor_loss critic_loss
  ∧ loss_calls network discount td_lambda p trajectory
    = [call_td_lambda (removelast values) (rewards trajectory)
         (map (λ d, fmul d discount) (discounts trajectory)) (tail values) td_lambda;
       call_policy_gradient_loss (removelast logits) (actions trajectory) td_errors w_t]
  ∧ params (sgd_step network optimizer discount td_lambda state trajectory)
    = apply_updates p
        (opt_update optimizer
           (jax_grad (loss_fn network discount td_lambda) p trajectory)
           (opt_state state)).1.
Proof.
  unfold loss_fn, loss_calls, loss, sgd_step.
  destruct (net_apply network (params state) (observations trajectory))
    as [logits values] eqn:Hnet.
  cbn. split; [reflexivity |]. split; [reflexivity |].
  by destruct (opt_update optimizer _ _).
Qed.
End AgentFacts.

(** C1, as stated for every call, fails: an agent built with a sequence
    length of 0 has a buffer that is full from the start, so [update]
    raises at the append; the transition is not appended and the terminal
    timestep gets no learning step. *)
Lemma update_on_full_buffer_not_appended :
  ¬ (∀ (S : Scalars) (L : Libraries) (network : agent.PolicyValueNet)
       (optimizer : agent.GradientTransformation) (discount td_lambda : F)
       (self : agent.ActorCritic) (timestep : TimeStep) (action : Action)
       (new_timestep : TimeStep),
       ∃ b log self',
         sequence.append (agent._buffer self) timestep action new_timestep = Ok b
         ∧ agent.update network optimizer discount td_lambda timestep action
             new_timestep self = (log, Ok (tt, self'))
         ∧ (agent.learning_steps log = 1
            ↔ sequence.full b = true ∨ last new_timestep = true)).
Proof.
  intros Hclaim.
  destruct (Hclaim Toy.Q_scalars Toy.toy_libraries Toy.toy_network Toy.toy_optimizer
              (99 # 100)%Q (9 # 10)%Q
              (agent.ActorCritic_init Toy.toy_network Toy.toy_optimizer
                 Toy.toy_obs_spec Toy.toy_action_spec (PRNGSequence_new 7) 0).2
              (Toy.step FIRST 0 1 (Toy.obs 1 2)) 1%Z
              (Toy.step LAST 1 0 (Toy.obs 3 4)))
    as (b & log & self' & Happ & _).
  cbn in Happ. discriminate Happ.
Qed.

(** What [update] does there: it raises, with no call made. *)
Example full_buffer_update_raises :
  agent.update Toy.toy_network Toy.toy_optimizer (99 # 100)%Q (9 # 10)%Q
    (Toy.step FIRST 0 1 (Toy.obs 1 2)) 1%Z (Toy.step LAST 1 0 (Toy.obs 3 4))
    (agent.ActorCritic_init Toy.toy_network Toy.toy_optimizer
       Toy.toy_obs_spec Toy.toy_action_spec (PRNGSequence_new 7) 0).2
  = ([], Raise (ValueError "Cannot append; sequence buffer is full.")).
Proof. reflexivity. Qed.

(** ** The wandb logger *)
Section LoggerFacts.
Import wandb_logging.

Lemma WandbLogger_init_name sweep bsuite_id project_name project_entity
    project_group project_config project_tags overwrite :
  ∃ kwargs,
    (WandbLogger_init sweep bsuite_id project_name project_entity project_group
       project_config project_tags overwrite).1 = [wandb_init kwargs]
    ∧ name kwargs = None ∧ id kwargs = None.
Proof. eexists. split; [reflexivity |]. done. Qed.

(** Each [write] forwards its data in one [wandb.log] call. *)
Lemma write_once data : (write data).1 = [wandb_log data].
Proof. reflexivity. Qed.

(** A separator of one character is replaced wherever it occurs. *)
Example safe_bsuite_id_catch : safe_bsuite_id Toy.toy_sweep "catch/0" = "catch-0".
Proof. reflexivity. Qed.

Example str_replace_nonoverlapping : str_replace "aaa/b//c" "//" "-" = "aaa/b-c".
Proof. reflexivity. Qed.

(** C4. For the identifier [catch/0] the sanitized, prefixed run name is
    [bsuite_id_-_catch-0], but [__init__] only computes it: the one call to
    [wandb.init] passes neither a name nor an id, so the run under which
    [write] then logs is not identified by it. *)
Theorem WandbLogger_init_drops_experiment_name :
  experiment_name Toy.toy_sweep "catch/0" = "bsuite_id_-_catch-0"
  ∧ (WandbLogger_init Toy.toy_sweep "catch/0" "rl-with-ts-obs" "bolling-adrien"
       "ts-bsuite" None None false).1
    = [wandb_init {| project := Some "rl-with-ts-obs";
                     entity := Some "bolling-adrien";
                     group := Some "ts-bsuite";
                     config := None;
                     tags := None;
                     reinit := Some false;
                     name := None;
                     id := None |}]
  ∧ ∀ kwargs,
      wandb_init kwargs ∈ (WandbLogger_init Toy.toy_sweep "catch/0" "rl-with-ts-obs"
                             "bolling-adrien" "ts-bsuite" None None false).1 →
      name kwargs ≠ Some (experiment_name Toy.toy_sweep "catch/0")
      ∧ id kwargs ≠ Some (experiment_name Toy.toy_sweep "catch/0").
Proof.
  split; [reflexivity |]. split; [reflexivity |].
  intros kwargs Hin. cbn in Hin.
  apply list_elem_of_singleton in Hin. injection Hin as ->. by split.
Qed.
End LoggerFacts.

(** ** The driver *)
Section DriverFacts.
Import run.

Variable sweep : SweepModule.
Variable load_and_record : string → string → LoggingMode → bool → result Environment.
Variable load_and_record_to_wandb :
  string → Z → string → string → string → gmap string PyVal →
  option (list string) → bool → result Environment.
Variable build_agent : ArraySpec → DiscreteArraySpec → result unit.
Variable map_mpi :
  (string → Prog Flags DriverCall string) → PyVal → Prog Flags DriverCall unit.

Ltac run_driver :=
  unfold main, run, run_with_wandb_logging, bsuite_load_and_record,
    bsuite_load_and_record_to_wandb, default_agent, experiment_run, print,
    set_verbose, pool_map_mpi;
  unfold mbind, Prog_bind, bind, mret, Prog_ret, ret, get, put, tell, lift, raise;
  cbn [fst snd app].



(** A registered identifier is run as a single experiment. *)
Lemma main_single_experiment (flags : Flags) :
  bsuite_id flags ∈ SWEEP sweep →
  ∃ rest r,
    main sweep load_and_record load_and_record_to_wandb build_agent map_mpi flags
    = (call_print "Running single experiment: bsuite_id={bsuite_id}."
         (PyStr (bsuite_id flags)) :: rest, r).
Proof.
  intros Hin. run_driver. rewrite bool_decide_eq_true_2 by done.
  destruct (is_wandb (logging_mode flags)).
  - destruct (load_and_record_to_wandb _ _ _ _ _ _ _ _); cbn; [| eauto].
    destruct (agent_outcome _ _ _) as [[] | e]; cbn; [| eauto].
    destruct (py_or _ _); cbn; eauto.
  - destruct (load_and_record _ _ _ _); cbn; [| eauto].
    destruct (agent_outcome _ _ _) as [[] | e]; cbn; [| eauto].
    destruct (py_or _ _); cbn; eauto.
Qed.

(** C9, as amended. When the identifier is not in [sweep.SWEEP] and is not
    the name of any attribute of the [sweep] module, [main] raises its
    [ValueError] at once: nothing is printed, no environment is loaded and
    no agent is made before it. *)
Theorem main_rejects_unknown_id (flags : Flags) :
  bsuite_id flags ∉ SWEEP sweep →
  sweep_hasattr sweep (bsuite_id flags) = false →
  main sweep load_and_record load_and_record_to_wandb build_agent map_mpi flags
  = ([], Raise (ValueError (String.append "Invalid flag: bsuite_id="
                              (String.append (bsuite_id flags) ".")))).
Proof.
  intros Hnotin Hattr. run_driver.
  rewrite bool_decide_eq_false_2 by done. by rewrite Hattr.
Qed.

(** An attribute of the module that is no sweep is still dispatched on. *)
Lemma main_dispatches_on_attribute (flags : Flags) (v : PyVal) :
  bsuite_id flags ∉ SWEEP sweep →
  sweep_getattr sweep (bsuite_id flags) = Some v →
  ∃ rest r,
    main sweep load_and_record load_and_record_to_wandb build_agent map_mpi flags
    = (call_print "Running sweep over bsuite_id in sweep.{bsuite_sweep}" v
         :: call_map_mpi v :: rest, r).
Proof.
  intros Hnotin Hattr. run_driver.
  rewrite bool_decide_eq_false_2 by done.
  unfold sweep_hasattr, sweep_getattr_result. rewrite Hattr. cbn.
  destruct (map_mpi _ v _) as [l r]. eauto.
Qed.
End DriverFacts.

(** C9, as stated, fails: [SEPARATOR] is neither a registered bsuite id nor
    the name of a registered sweep, yet it names an attribute of the [sweep]
    module, so [main] does not raise: it reports a sweep, clears
    [FLAGS.verbose] and hands the separator string to [pool.map_mpi]. *)
Lemma main_unregistered_id_not_rejected :
  ¬ (∀ (sweep : SweepModule) load_and_record load_and_record_to_wandb build_agent
       map_mpi (flags : run.Flags),
       run.bsuite_id flags ∉ SWEEP sweep →
       ¬ registered_sweep sweep (run.bsuite_id flags) →
       run.main sweep load_and_record load_and_record_to_wandb build_agent map_mpi
         flags
       = ([], Raise (ValueError (String.append "Invalid flag: bsuite_id="
                                   (String.append (run.bsuite_id flags) "."))))).
Proof.
  intros Hclaim.
  specialize (Hclaim Toy.toy_sweep Toy.toy_load_and_record
                Toy.toy_load_and_record_to_wandb Toy.toy_build_agent Toy.toy_map_mpi
                (Toy.toy_flags "SEPARATOR" None)).
  assert (Hnotin : "SEPARATOR" ∉ SWEEP Toy.toy_sweep).
  { cbn. intros Hin. apply list_elem_of_In in Hin. cbn in Hin.
    destruct Hin as [Hin | [Hin | []]]; discriminate Hin. }
  assert (Hnosweep : ¬ registered_sweep Toy.toy_sweep "SEPARATOR").
  { intros [ids Hids]. cbn in Hids. discriminate. }
  specialize (Hclaim Hnotin Hnosweep).
  vm_compute in Hclaim. discriminate Hclaim.
Qed.

(** ** The statements on the concrete instance *)
Section Examples.
Import sequence agent run Toy.


Lemma drain_trajectory_and_reset_witness :
  wf toy_buffer
  ∧ length (observations (drain toy_buffer).1) = 2
  ∧ length (actions (drain toy_buffer).1) = 1
  ∧ cursor (drain toy_buffer).2 = 0
  ∧ segment_start (drain toy_buffer).2 = Some (obs 3 4).
Proof.
  assert (Hwf : wf toy_buffer) by (split; cbn; lia).
  split; [exact Hwf |].
  pose proof (drain_trajectory_and_reset toy_buffer Hwf) as Hd.
  cbn in Hd. destruct Hd as (Ho & Ha & _ & _ & Hc & _ & _ & _ & _ & Hs & _).
  split; [exact Ho |]. split; [exact Ha |]. split; [exact Hc |]. exact Hs.
Defined.

Lemma update_learning_step_witness :
  full (_buffer toy_agent) = false
  ∧ ∃ b log self',
      append (_buffer toy_agent) (step FIRST 0 1 (obs 1 2)) 1%Z
        (step LAST 1 0 (obs 3 4)) = Ok b
      ∧ update toy_network toy_optimizer (99 # 100)%Q (9 # 10)%Q
          (step FIRST 0 1 (obs 1 2)) 1%Z (step LAST 1 0 (obs 3 4)) toy_agent
        = (log, Ok (tt, self'))
      ∧ learning_steps log = 1
      ∧ log = [call_sgd_step (_state toy_agent) (drain b).1]
      ∧ _state self' = sgd_step toy_network toy_optimizer (99 # 100)%Q (9 # 10)%Q
                         (_state toy_agent) (drain b).1
      ∧ _buffer self' = (drain b).2
      ∧ _rng self' = _rng toy_agent.
Proof.
  split; [reflexivity |].
  destruct (update_learning_step toy_network toy_optimizer (99 # 100)%Q (9 # 10)%Q
              toy_agent (step FIRST 0 1 (obs 1 2)) 1%Z (step LAST 1 0 (obs 3 4))
              eq_refl)
    as (b & log & self' & Happ & Hupd & Hrng & _ & Hiff & Hlearn & _).
  destruct (Hlearn (or_intror eq_refl)) as (Hlog & Hstate & Hbuf).
  exists b, log, self'. split; [exact Happ |]. split; [exact Hupd |].
  split; [exact (proj2 Hiff (or_intror eq_refl)) |]. split; [exact Hlog |].
  split; [exact Hstate |]. split; [exact Hbuf | exact Hrng].
Defined.


Lemma select_action_frame_witness :
  (∀ p obs, length (net_apply toy_network p obs).1 = length obs)
  ∧ (∀ (key : Z) (logits : list (list Q)),
       length (categorical key logits) = length logits)
  ∧ ∃ (action : Z) log self',
      select_action toy_network (step MID 1 1 (obs 1 2)) toy_agent
        = (log, Ok (action, self'))
      ∧ _state self' = _state toy_agent
      ∧ _buffer self' = _buffer toy_agent.
Proof.
  assert (Hnet : ∀ p obs, length (net_apply toy_network p obs).1 = length obs)
    by (intros p obs; cbn; apply length_map).
  assert (Hcat : ∀ (key : Z) (logits : list (list Q)),
             length (categorical key logits) = length logits)
    by (intros key logits; cbn; apply length_map).
  split; [exact Hnet |]. split; [exact Hcat |].
  destruct (select_action_frame toy_network toy_agent (step MID 1 1 (obs 1 2))
              Hnet Hcat)
    as (action & log & self' & Hsel & _ & Hstate & Hbuf & _).
  exists action, log, self'. split; [exact Hsel |]. split; [exact Hstate | exact Hbuf].
Defined.

Lemma select_actions_deterministic_witness :
  _rng toy_agent = _rng toy_agent_later
  ∧ params (_state toy_agent) = params (_state toy_agent_later)
  ∧ actions_of (select_actions toy_network
                  [step FIRST 0 1 (obs 1 2); step MID 1 1 (obs 3 4)] toy_agent)
    = actions_of (select_actions toy_network
                    [step MID 5 0 (obs 1 2); step LAST 2 0 (obs 3 4)] toy_agent_later).
Proof.
  split; [reflexivity |]. split; [reflexivity |].
  apply (select_actions_deterministic toy_network
           [step FIRST 0 1 (obs 1 2); step MID 1 1 (obs 3 4)]
           [step MID 5 0 (obs 1 2); step LAST 2 0 (obs 3 4)]
           toy_agent toy_agent_later); reflexivity.
Defined.

Lemma main_rejects_unknown_id_witness :
("nosuch/0" ∉ SWEEP toy_sweep)
  ∧ sweep_hasattr toy_sweep "nosuch/0" = false
  ∧ main toy_sweep toy_load_and_record toy_load_and_record_to_wandb toy_build_agent toy_map_mpi
      (toy_flags "nosuch/0" None)
    = ([], Raise (ValueError "Invalid flag: bsuite_id=nosuch/0.")).
Proof.
  assert (Hnotin : "nosuch/0" ∉ SWEEP toy_sweep).
  { intros Hin. apply list_elem_of_In in Hin. cbn in Hin.
    destruct Hin as [Hin | [Hin | []]]; discriminate Hin. }
  split; [exact Hnotin |]. split; [reflexivity |].
  exact (main_rejects_unknown_id toy_sweep toy_load_and_record
           toy_load_and_record_to_wandb toy_build_agent toy_map_mpi (toy_flags "nosuch/0" None)
           Hnotin eq_refl).
Defined.


(** The scenario of the specification on a buffer of two transitions: the
    second transition fills the buffer and triggers one learning step on
    both; the next one ends the episode and triggers one on it alone. *)
Example updates_scenario :
  let out :=
    updates toy_network toy_optimizer (99 # 100)%Q (9 # 10)%Q
      [(step FIRST 0 1 (obs 1 2), 1%Z, step MID 1 1 (obs 3 4));
       (step MID 1 1 (obs 3 4), 0%Z, step MID 0 1 (obs 5 6));
       (step MID 0 1 (obs 5 6), 2%Z, step LAST 1 0 (obs 7 8))] toy_agent in
  map (λ c, match c with
            | call_sgd_step _ t => Some (length (observations t), length (actions t))
            | _ => None
            end) out.1
  = [Some (3, 2); Some (2, 1)]
  ∧ result_map (λ r, cursor (_buffer r.2)) out.2 = Ok 0.
Proof. vm_compute. split; reflexivity. Qed.

(** With the override at 7 the attribute is not consulted. *)
Example run_with_override :
  (run toy_load_and_record toy_build_agent "catch/1" (toy_flags "catch/1" (Some 7%Z))).1
  = [call_load_and_record "catch/1" "/tmp/bsuite" wandb false;
     call_default_agent toy_obs_spec toy_action_spec;
     call_experiment_run toy_env (PyInt 7) true].
Proof. reflexivity. Qed.

(** What [main] does with [SEPARATOR] when the sweep runner calls [run] on
    each item in turn: the environment named by the separator is asked for. *)
Example main_on_SEPARATOR :
  main toy_sweep toy_load_and_record toy_load_and_record_to_wandb toy_build_agent toy_map_mpi
    (toy_flags "SEPARATOR" None)
  = ([call_print "Running sweep over bsuite_id in sweep.{bsuite_sweep}" (PyStr "/");
      call_map_mpi (PyStr "/");
      call_load_and_record "/" "/tmp/bsuite" wandb false],
     Raise (KeyError "/")).
Proof. reflexivity. Qed.
End Examples.

(** * Further properties *)

(** ** Sanitizing identifiers *)
Section SanitizeFacts.
Import wandb_logging.

Lemma prefix_char (c a : Ascii.ascii) (s : string) :
  String.prefix (String c EmptyString) (String a s) = Ascii.eqb c a.
Proof.
  cbn. destruct (Ascii.ascii_dec c a) as [-> | Hne].
  - rewrite Ascii.eqb_refl. by destruct s.
  - symmetry. by apply Ascii.eqb_neq.
Qed.

(** Replacing one character by one character maps the string. *)
Lemma str_replace_char (c d : Ascii.ascii) (s : string) :
  str_replace s (String c EmptyString) (String d EmptyString)
  = map_string (subst_char c d) s.
Proof.
  unfold str_replace. cbn [String.eqb].
  induction s as [| a s IH]; [reflexivity |].
  cbn [replace_from map_string]. rewrite prefix_char. unfold subst_char at 1.
  cbn [String.length Nat.sub]. destruct (Ascii.eqb c a); cbn; by rewrite IH.
Qed.

Lemma chars_map_string f s : chars (map_string f s) = map f (chars s).
Proof.
  unfold chars. induction s as [| a s IH]; [reflexivity |]. cbn. by rewrite IH.
Qed.

Lemma map_string_id_on f s :
  (∀ a, a ∈ chars s → f a = a) → map_string f s = s.
Proof.
  induction s as [| a s IH]; intros Hf; [reflexivity |]. cbn.
  rewrite (Hf a) by (cbn; left). rewrite IH; [done |].
  intros b Hb. apply Hf. cbn. by right.
Qed.

Lemma length_map_string f s : String.length (map_string f s) = String.length s.
Proof. induction s as [| a s IH]; [reflexivity |]. cbn. by rewrite IH. Qed.

Lemma substring_all (s : string) : String.substring 0 (String.length s) s = s.
Proof. induction s as [| a s IH]; [reflexivity |]. cbn. by rewrite IH. Qed.

Lemma subst_char_other (c d a : Ascii.ascii) : a ≠ c → subst_char c d a = a.
Proof.
  intros Hne. unfold subst_char.
  destruct (Ascii.eqb_spec c a) as [-> | _]; [done | reflexivity].
Qed.

Lemma subst_char_hit (c d : Ascii.ascii) : subst_char c d c = d.
Proof. unfold subst_char. by rewrite Ascii.eqb_refl. Qed.

Lemma subst_char_not (c d a : Ascii.ascii) : c ≠ d → subst_char c d a ≠ c.
Proof.
  intros Hne. unfold subst_char.
  destruct (Ascii.eqb_spec c a) as [-> | Hca]; congruence.
Qed.

Variable sweep : SweepModule.
Variable c : Ascii.ascii.
Hypothesis one_char : SEPARATOR sweep = String c EmptyString.

Lemma safe_bsuite_id_map (bsuite_id : string) :
  safe_bsuite_id sweep bsuite_id = map_string (subst_char c dash) bsuite_id.
Proof.
  unfold safe_bsuite_id, SAFE_SEPARATOR. rewrite one_char. apply str_replace_char.
Qed.

Lemma safe_bsuite_id_fixed (bsuite_id : string) :
  c ∉ chars bsuite_id → safe_bsuite_id sweep bsuite_id = bsuite_id.
Proof.
  intros Hc. rewrite safe_bsuite_id_map. apply map_string_id_on.
  intros a Ha. apply subst_char_other. congruence.
Qed.

Lemma safe_bsuite_id_clean (bsuite_id : string) :
  c ≠ dash → c ∉ chars (safe_bsuite_id sweep bsuite_id).
Proof.
  intros Hne. rewrite safe_bsuite_id_map, chars_map_string.
  intros Hin. apply list_elem_of_fmap in Hin as (a & Ha & _).
  symmetry in Ha. by apply subst_char_not in Ha.
Qed.

(** X1. When the separator is one character other than [-], the sanitized
    identifier has no separator left and is as long as the identifier. *)
Theorem safe_bsuite_id_no_separator (bsuite_id : string) :
  c ≠ dash →
  (c ∉ chars (safe_bsuite_id sweep bsuite_id))
  ∧ String.length (safe_bsuite_id sweep bsuite_id) = String.length bsuite_id.
Proof.
  intros Hne. split; [by apply safe_bsuite_id_clean |].
  rewrite safe_bsuite_id_map. apply length_map_string.
Qed.

(** X2. An identifier is left as it is exactly when it has no separator
    (the separator being one character other than [-]). *)
Theorem safe_bsuite_id_fixed_iff (bsuite_id : string) :
  c ≠ dash →
  safe_bsuite_id sweep bsuite_id = bsuite_id ↔ c ∉ chars bsuite_id.
Proof.
  intros Hne. split.
  - intros Heq. rewrite <- Heq. by apply safe_bsuite_id_clean.
  - apply safe_bsuite_id_fixed.
Qed.

(** X3. The run name is not injective: an identifier with a separator in
    it has the same run name as another identifier, its sanitized form. *)
Theorem experiment_name_collision (bsuite_id : string) :
  c ≠ dash →
  c ∈ chars bsuite_id →
  ∃ other, other ≠ bsuite_id
           ∧ experiment_name sweep other = experiment_name sweep bsuite_id.
Proof.
  intros Hne Hin. exists (safe_bsuite_id sweep bsuite_id). split.
  - intros Heq. apply (safe_bsuite_id_clean bsuite_id Hne). by rewrite Heq.
  - unfold experiment_name. f_equal.
    apply safe_bsuite_id_fixed. by apply safe_bsuite_id_clean.
Qed.

(** X4. For an identifier without [-], putting the separator back in place
    of [-] in the sanitized identifier gives the identifier again. *)
Theorem safe_bsuite_id_round_trip (bsuite_id : string) :
  dash ∉ chars bsuite_id →
  str_replace (safe_bsuite_id sweep bsuite_id) SAFE_SEPARATOR (SEPARATOR sweep)
  = bsuite_id.
Proof.
  intros Hdash. rewrite safe_bsuite_id_map, one_char.
  unfold SAFE_SEPARATOR. rewrite str_replace_char.
  induction bsuite_id as [| a s IH]; [reflexivity |].
  cbn [map_string]. rewrite IH by (intros Hin; apply Hdash; cbn; by right).
  f_equal. unfold subst_char at 2.
  destruct (Ascii.eqb_spec c a) as [-> | Hca].
  - apply subst_char_hit.
  - apply subst_char_other. intros ->. apply Hdash. cbn. by left.
Qed.

(** X5. The run name is the fixed tag followed by as many characters as
    the identifier has. *)
Theorem experiment_name_shape (bsuite_id : string) :
  String.prefix BSUITE_PREFIX (experiment_name sweep bsuite_id) = true
  ∧ String.length (experiment_name sweep bsuite_id) = 12 + String.length bsuite_id
  ∧ String.substring 12 (String.length bsuite_id) (experiment_name sweep bsuite_id)
    = safe_bsuite_id sweep bsuite_id.
Proof.
  unfold experiment_name. rewrite safe_bsuite_id_map.
  rewrite <- (length_map_string (subst_char c dash) bsuite_id).
  generalize (map_string (subst_char c dash) bsuite_id) as s. intros s.
  split; [| split].
  - cbn. by destruct s.
  - reflexivity.
  - change (String.substring 0 (String.length s) s = s). apply substring_all.
Qed.
End SanitizeFacts.

(** ** Wrapping an environment and writing to the logger *)
Section WrapFacts.
Import wandb_logging wandb_more.

Variable sweep : SweepModule.
Variable Env WrappedEnv : Type.
Variable Logging : Env → unit → bool → WrappedEnv.

Lemma writes_log (records : list (gmap string PyVal)) :
  (writes records).1 = map wandb_log records.
Proof.
  induction records as [| data rest IH]; [reflexivity |].
  cbn [writes]. unfold mbind, Logged_bind.
  destruct (writes rest) as [l u]. cbn in *. by rewrite IH.
Qed.

(** X6. Wrapping an environment and then writing records makes one
    [wandb.init] call, which carries no run name, followed by one
    [wandb.log] call per record, in the order written; the environment is
    wrapped with [log_by_step] as given. *)
Theorem wrap_then_write (env : Env) (bsuite_id project_name project_entity
    project_group : string) project_config project_tags (overwrite log_by_step : bool)
    (records : list (gmap string PyVal)) :
  let wrapped :=
    wrap_environment sweep Env WrappedEnv Logging env bsuite_id project_name
      project_entity project_group project_config project_tags overwrite
      log_by_step in
  wrapped.2 = Logging env tt log_by_step
  ∧ ∃ kwargs,
      (wrapped ;; writes records).1 = wandb_init kwargs :: map wandb_log records
      ∧ name kwargs = None
      ∧ id kwargs = None
      ∧ project kwargs = Some project_name.
Proof.
  cbn zeta. split; [reflexivity |]. eexists.
  unfold mbind at 1, Logged_bind.
  pose proof (writes_log records) as Hw.
  destruct (writes records) as [l u]. cbn in Hw. subst l.
  cbn. split; [reflexivity |]. done.
Qed.
End WrapFacts.

(** ** More on the driver *)
Section DriverMore.
Import run run_more.

Variable sweep : SweepModule.
Variable load_and_record : string → string → LoggingMode → bool → result Environment.
Variable load_and_record_to_wandb :
  string → Z → string → string → string → gmap string PyVal →
  option (list string) → bool → result Environment.
Variable build_agent : ArraySpec → DiscreteArraySpec → result unit.
Variable map_mpi :
  (string → Prog Flags DriverCall string) → PyVal → Prog Flags DriverCall unit.

Ltac run_driver' :=
  unfold main, run, run_with_wandb_logging, bsuite_load_and_record,
    bsuite_load_and_record_to_wandb, default_agent, experiment_run, print,
    set_verbose, pool_map_mpi;
  unfold mbind, Prog_bind, bind, mret, Prog_ret, ret, get, put, tell, lift, raise;
  cbn [fst snd app].

(** [run], as one equation. *)
Lemma run_cases (id : string) (flags : Flags) :
  run load_and_record build_agent id flags =
    let load := call_load_and_record id (save_path flags) (logging_mode flags)
                  (overwrite flags) in
    match load_and_record id (save_path flags) (logging_mode flags) (overwrite flags) with
    | Raise e => ([load], Raise e)
    | Ok env =>
        let make_agent := call_default_agent (observation_spec env) (action_spec env) in
        match agent_outcome build_agent (observation_spec env) (action_spec env),
              py_or (flag_value (num_episodes flags))
                (getattr env "bsuite_num_episodes") with
        | Raise e, _ => ([load; make_agent], Raise e)
        | Ok _, Raise e => ([load; make_agent], Raise e)
        | Ok _, Ok n => ([load; make_agent; call_experiment_run env n (verbose flags)],
                         Ok (id, flags))
        end
    end.
Proof.
  run_driver'. destruct (load_and_record _ _ _ _) as [env | e]; cbn; [| done].
  destruct (agent_outcome _ _ _) as [[] | e]; cbn; [| done].
  destruct (py_or _ _); reflexivity.
Qed.

(** [run_with_wandb_logging], as one equation. *)
Lemma run_with_wandb_logging_cases (id : string) (flags : Flags) :
  run_with_wandb_logging load_and_record_to_wandb build_agent id flags =
    let config := wandb_config id (num_episodes flags) in
    let load := call_load_and_record_to_wandb id (max_episode_length flags)
                  (project_name flags) (project_entity flags) (project_group flags)
                  config (project_tags flags) (overwrite flags) in
    match load_and_record_to_wandb id (max_episode_length flags)
            (project_name flags) (project_entity flags) (project_group flags)
            config (project_tags flags) (overwrite flags) with
    | Raise e => ([load], Raise e)
    | Ok env =>
        let make_agent := call_default_agent (observation_spec env) (action_spec env) in
        match agent_outcome build_agent (observation_spec env) (action_spec env),
              py_or (flag_value (num_episodes flags))
                (getattr env "bsuite_num_episodes") with
        | Raise e, _ => ([load; make_agent], Raise e)
        | Ok _, Raise e => ([load; make_agent], Raise e)
        | Ok _, Ok n => ([load; make_agent; call_experiment_run env n (verbose flags)],
                         Ok (tt, flags))
        end
    end.
Proof.
  run_driver'. destruct (load_and_record_to_wandb _ _ _ _ _ _ _ _) as [env | e];
    cbn; [| done].
  destruct (agent_outcome _ _ _) as [[] | e]; cbn; [| done].
  destruct (py_or _ _); reflexivity.
Qed.


(** X7. When loading the environment raises, [run] and
    [run_with_wandb_logging] raise the same exception: the load is the only
    call made, no agent is built and no experiment is run. *)
Theorem run_load_failure (id : string) (flags : Flags) (e1 e2 : exn) :
  load_and_record id (save_path flags) (logging_mode flags) (overwrite flags)
    = Raise e1 →
  load_and_record_to_wandb id (max_episode_length flags) (project_name flags)
    (project_entity flags) (project_group flags)
    (wandb_config id (num_episodes flags)) (project_tags flags) (overwrite flags)
    = Raise e2 →
  run load_and_record build_agent id flags
    = ([call_load_and_record id (save_path flags) (logging_mode flags)
          (overwrite flags)], Raise e1)
  ∧ run_with_wandb_logging load_and_record_to_wandb build_agent id flags
    = ([call_load_and_record_to_wandb id (max_episode_length flags)
          (project_name flags) (project_entity flags) (project_group flags)
          (wandb_config id (num_episodes flags)) (project_tags flags)
          (overwrite flags)], Raise e2).
Proof.
  intros H1 H2. rewrite run_cases, run_with_wandb_logging_cases. cbn zeta.
  by rewrite H1, H2.
Qed.


(** X9. For an identifier that is not a registered id but names an
    attribute of the [sweep] module, [main] reports the sweep and hands
    [run] and the attribute to the sweep runner, with [FLAGS.verbose]
    cleared and every other flag as it was.  The logging mode plays no
    part: the runner gets [run], not [run_with_wandb_logging], also when
    the mode is [wandb]. *)
Theorem main_sweep_dispatch (flags : Flags) (bsuite_sweep : PyVal) :
  bsuite_id flags ∉ SWEEP sweep →
  sweep_getattr sweep (bsuite_id flags) = Some bsuite_sweep →
  main sweep load_and_record load_and_record_to_wandb build_agent map_mpi flags
  = let out := map_mpi (run load_and_record build_agent) bsuite_sweep (clear_verbose flags) in
    (call_print "Running sweep over bsuite_id in sweep.{bsuite_sweep}" bsuite_sweep
       :: call_map_mpi bsuite_sweep :: out.1,
     out.2).
Proof.
  intros Hnotin Hattr. run_driver'.
  rewrite bool_decide_eq_false_2 by done.
  unfold sweep_hasattr, sweep_getattr_result. rewrite Hattr. cbn.
  unfold clear_verbose. by destruct (map_mpi _ _ _) as [l r].
Qed.


(** X11. [main] makes no call at all exactly when the identifier is neither
    a registered id nor the name of an attribute of the [sweep] module, and
    then it raises its [ValueError]. *)
Theorem main_silent_iff_rejected (flags : Flags) :
  ((main sweep load_and_record load_and_record_to_wandb build_agent map_mpi flags).1 = []
   ↔ (bsuite_id flags ∉ SWEEP sweep) ∧ sweep_hasattr sweep (bsuite_id flags) = false)
  ∧ ((main sweep load_and_record load_and_record_to_wandb build_agent map_mpi flags).1 = [] →
     ∃ msg, (main sweep load_and_record load_and_record_to_wandb build_agent map_mpi flags).2
            = Raise (ValueError msg)).
Proof.
  assert (Hcases :
    ((bsuite_id flags ∉ SWEEP sweep) ∧ sweep_hasattr sweep (bsuite_id flags) = false
     ∧ ∃ msg, main sweep load_and_record load_and_record_to_wandb build_agent map_mpi flags
              = ([], Raise (ValueError msg)))
    ∨ ((bsuite_id flags ∈ SWEEP sweep ∨ sweep_hasattr sweep (bsuite_id flags) = true)
       ∧ (main sweep load_and_record load_and_record_to_wandb build_agent map_mpi flags).1 ≠ [])).
  { destruct (decide (bsuite_id flags ∈ SWEEP sweep)) as [Hin | Hnotin].
    - right. split; [by left |].
      destruct (main_single_experiment sweep load_and_record load_and_record_to_wandb
                  build_agent map_mpi flags Hin) as (rest & r & ->). done.
    - destruct (sweep_getattr sweep (bsuite_id flags)) as [v |] eqn:Hattr.
      + right. split; [right; unfold sweep_hasattr; by rewrite Hattr |].
        destruct (main_dispatches_on_attribute sweep load_and_record
                    load_and_record_to_wandb build_agent map_mpi flags v Hnotin Hattr)
          as (rest & r & ->). done.
      + left. split; [done |].
        assert (Hhas : sweep_hasattr sweep (bsuite_id flags) = false)
          by (unfold sweep_hasattr; by rewrite Hattr).
        split; [done |]. eexists. run_driver'.
        rewrite bool_decide_eq_false_2 by done. by rewrite Hhas. }
  destruct Hcases as [(Hnotin & Hhas & msg & Hmain) | [Hor Hlog]].
  - rewrite Hmain. cbn. split; [done | eauto].
  - split.
    + split; [done |]. intros [Hnotin Hhas]. destruct Hor; congruence.
    + done.
Qed.

(** X18. For an environment whose observation spec has an empty shape,
    [run] and [run_with_wandb_logging] load the environment, call
    [default_agent] and stop there with the [IndexError] of
    [obs_spec.shape[-1]]: no experiment is run, whatever the override. *)
Theorem run_scalar_observations (id : string) (flags : Flags) (env : Environment) :
  load_and_record id (save_path flags) (logging_mode flags) (overwrite flags) = Ok env →
  load_and_record_to_wandb id (max_episode_length flags) (project_name flags)
    (project_entity flags) (project_group flags)
    (wandb_config id (num_episodes flags)) (project_tags flags) (overwrite flags)
    = Ok env →
  spec_shape (observation_spec env) = [] →
  run load_and_record build_agent id flags
    = ([call_load_and_record id (save_path flags) (logging_mode flags)
          (overwrite flags);
        call_default_agent (observation_spec env) (action_spec env)],
       Raise (IndexError "tuple index out of range"))
  ∧ run_with_wandb_logging load_and_record_to_wandb build_agent id flags
    = ([call_load_and_record_to_wandb id (max_episode_length flags)
          (project_name flags) (project_entity flags) (project_group flags)
          (wandb_config id (num_episodes flags)) (project_tags flags)
          (overwrite flags);
        call_default_agent (observation_spec env) (action_spec env)],
       Raise (IndexError "tuple index out of range"))
  ∧ episodes_run (run load_and_record build_agent id flags).1 = [].
Proof.
  intros H1 H2 Hshape. rewrite run_cases, run_with_wandb_logging_cases. cbn zeta.
  rewrite H1, H2. unfold agent_outcome. rewrite Hshape. cbn. done.
Qed.
End DriverMore.

(** ** More on the agent *)
Section AgentMore.
Context `{Libraries}.
Import sequence agent agent_more.

Variable network : PolicyValueNet.
Variable optimizer : GradientTransformation.
Variable discount : F.
Variable td_lambda : F.

Ltac run_prog' :=
  unfold update, select_action, buffer_append, buffer_full, buffer_drain,
    _sgd_step, _forward, categorical_, next_rng, set_state, set_buffer;
  unfold mbind, Prog_bind, bind, mret, Prog_ret, ret, get, put, tell, lift, raise;
  cbn [fst snd app].

Lemma learning_steps_app (l1 l2 : list Call) :
  learning_steps (l1 ++ l2) = learning_steps l1 + learning_steps l2.
Proof. unfold learning_steps. by rewrite filter_app, length_app. Qed.

Lemma trajectories_app (l1 l2 : list Call) :
  trajectories (l1 ++ l2) = trajectories l1 ++ trajectories l2.
Proof. unfold trajectories. apply omap_app. Qed.

(** [update], whatever the append does. *)
Lemma update_cases (self : ActorCritic) timestep action new_timestep :
  update network optimizer discount td_lambda timestep action new_timestep self =
    match append (_buffer self) timestep action new_timestep with
    | Raise e => ([], Raise e)
    | Ok b =>
        if full b || last new_timestep then
          ([call_sgd_step (_state self) (drain b).1],
           Ok (tt, {| _state := sgd_step network optimizer discount td_lambda
                                  (_state self) (drain b).1;
                      _buffer := (drain b).2;
                      _rng := _rng self |}))
        else ([], Ok (tt, {| _state := _state self; _buffer := b; _rng := _rng self |}))
    end.
Proof.
  destruct (append (_buffer self) timestep action new_timestep) as [b | e] eqn:Happ.
  - by apply update_eq.
  - run_prog'. by rewrite Happ.
Qed.

(** One update of a ready agent. *)
Lemma update_step (self : ActorCritic) timestep action new_timestep :
  ready self →
  ∃ b,
    append (_buffer self) timestep action new_timestep = Ok b
    ∧ wf b
    ∧ cursor b = S (cursor (_buffer self))
    ∧ capacity b = capacity (_buffer self)
    ∧ update network optimizer discount td_lambda timestep action new_timestep self =
        if full b || last new_timestep then
          ([call_sgd_step (_state self) (drain b).1],
           Ok (tt, {| _state := sgd_step network optimizer discount td_lambda
                                  (_state self) (drain b).1;
                      _buffer := (drain b).2;
                      _rng := _rng self |}))
        else ([], Ok (tt, {| _state := _state self; _buffer := b; _rng := _rng self |})).
Proof.
  intros [Hwf Hlt].
  destruct (append_Ok (_buffer self) timestep action new_timestep)
    as (b & Happ & Hc & Hcap & _).
  { apply Nat.eqb_neq. lia. }
  exists b. split; [done |]. split; [by eapply append_wf |].
  split; [done |]. split; [done |]. by apply update_eq.
Qed.

(** The sequence and the outcome of [updates], one step unfolded. *)
Lemma updates_cons timestep action new_timestep rest (self : ActorCritic) :
  updates network optimizer discount td_lambda
    ((timestep, action, new_timestep) :: rest) self =
    match update network optimizer discount td_lambda timestep action new_timestep
            self with
    | (l1, Ok (_, self1)) =>
        let out := updates network optimizer discount td_lambda rest self1 in
        (l1 ++ out.1, out.2)
    | (l1, Raise e) => (l1, Raise e)
    end.
Proof.
  cbn [updates]. unfold mbind, Prog_bind, bind.
  destruct (update _ _ _ _ _ _ _ self) as [l1 [[[] self1] | e]]; [| done].
  by destruct (updates _ _ _ _ rest self1).
Qed.

(** Actions and calls of [select_actions] depend on the random sequence,
    the parameters and the observations only. *)
Lemma select_actions_ext (timesteps : list TimeStep) : ∀ self1 self2 : ActorCritic,
  _rng self1 = _rng self2 →
  params (_state self1) = params (_state self2) →
  (select_actions network timesteps self1).1 = (select_actions network timesteps self2).1
  ∧ actions_of (select_actions network timesteps self1)
    = actions_of (select_actions network timesteps self2).
Proof.
  induction timesteps as [| ts rest IH]; intros self1 self2 Hrng Hparams;
    [done |].
  cbn [select_actions]. unfold mbind, Prog_bind, bind.
  rewrite !select_action_eq. cbn zeta.
  rewrite <- Hrng, <- Hparams.
  destruct (int_squeeze _) as [action | e]; [| done].
  specialize (IH
    {| _state := _state self1; _buffer := _buffer self1; _rng := (next (_rng self1)).2 |}
    {| _state := _state self2; _buffer := _buffer self2; _rng := (next (_rng self1)).2 |}
    eq_refl Hparams).
  unfold actions_of, result_map, result_bind in *.
  destruct (select_actions network rest _) as [l1 [[a1 s1] | e1]];
    destruct (select_actions network rest _) as [l2 [[a2 s2] | e2]];
    cbn in *; destruct IH as [-> IH]; split; congruence.
Qed.

(** Updates leave the random sequence alone, and the Training State too
    when they make no learning step. *)
Lemma updates_frame transitions : ∀ (self self' : ActorCritic) log,
  updates network optimizer discount td_lambda transitions self = (log, Ok (tt, self')) →
  _rng self' = _rng self
  ∧ (learning_steps log = 0 → _state self' = _state self).
Proof.
  induction transitions as [| [[ts a] nts] rest IH]; intros self self' log Hup.
  - cbn in Hup. by injection Hup as <- <-.
  - rewrite updates_cons, update_cases in Hup.
    destruct (append (_buffer self) ts a nts) as [b | e]; [| discriminate].
    destruct (full b || last nts).
    + destruct (updates _ _ _ _ rest _) as [l2 [[[] s2] | e2]] eqn:Hrest;
        cbn in Hup; [| discriminate].
      injection Hup as <- <-. destruct (IH _ _ _ Hrest) as [Hrng _].
      split; [done |]. intros Hl. unfold learning_steps in Hl.
      rewrite filter_cons_True in Hl by reflexivity. discriminate.
    + destruct (updates _ _ _ _ rest _) as [l2 [[[] s2] | e2]] eqn:Hrest;
        cbn in Hup; [| discriminate].
      injection Hup as <- <-. destruct (IH _ _ _ Hrest) as [Hrng Hstate].
      split; [done |]. intros Hl. by apply Hstate.
Qed.

(** X12. Between learning steps the policy is frozen, and updates never
    touch the random sequence: after updates that made no learning step,
    [select_action] makes the calls and chooses the actions it would have
    without them. *)
Theorem policy_frozen_between_learning_steps transitions timesteps
    (self self' : ActorCritic) log :
  updates network optimizer discount td_lambda transitions self = (log, Ok (tt, self')) →
  learning_steps log = 0 →
  (select_actions network timesteps self').1 = (select_actions network timesteps self).1
  ∧ actions_of (select_actions network timesteps self')
    = actions_of (select_actions network timesteps self).
Proof.
  intros Hup Hl. destruct (updates_frame _ _ _ _ Hup) as [Hrng Hstate].
  apply select_actions_ext; [done |]. by rewrite Hstate.
Qed.

(** One update of a ready agent, by what it did. *)
Lemma update_outcome (self : ActorCritic) timestep action new_timestep :
  ready self →
  ∃ log self1,
    update network optimizer discount td_lambda timestep action new_timestep self
      = (log, Ok (tt, self1))
    ∧ ready self1
    ∧ capacity (_buffer self1) = capacity (_buffer self)
    ∧ ((log = []
        ∧ cursor (_buffer self1) = S (cursor (_buffer self))
        ∧ last new_timestep = false)
       ∨ (∃ trajectory,
            log = [call_sgd_step (_state self) trajectory]
            ∧ trajectory_of_length (S (cursor (_buffer self))) trajectory
            ∧ cursor (_buffer self1) = 0
            ∧ (S (cursor (_buffer self)) = capacity (_buffer self)
               ∨ last new_timestep = true))).
Proof.
  intros Hready.
  destruct (update_step self timestep action new_timestep Hready)
    as (b & Happ & Hwf & Hc & Hcap & Hup).
  destruct Hready as [_ Hlt]. rewrite Hup.
  destruct (full b || last new_timestep) eqn:Hlearn.
  - eexists _, _. split; [reflexivity |]. cbn [_buffer].
    split; [split; [by apply drain_wf | cbn; lia] |].
    split; [cbn; lia |]. right. eexists. split; [reflexivity |].
    destruct Hwf as [Ho Ha Hr Hd Hle].
    split; [| split; [reflexivity |]].
    + unfold trajectory_of_length. cbn. rewrite !length_take. lia.
    + apply orb_true_iff in Hlearn as [Hf | Hl]; [left | by right].
      apply Nat.eqb_eq in Hf. lia.
  - apply orb_false_iff in Hlearn as [Hf Hl]. apply Nat.eqb_neq in Hf.
    eexists _, _. split; [reflexivity |]. cbn [_buffer].
    split; [split; [done | destruct Hwf; cbn; lia] |].
    split; [done |]. by left.
Qed.

(** Counting the learning steps of updates that never end an episode. *)
Lemma updates_count transitions : ∀ self : ActorCritic,
  ready self →
  non_terminal transitions →
  ∃ log self',
    updates network optimizer discount td_lambda transitions self
      = (log, Ok (tt, self'))
    ∧ ready self'
    ∧ capacity (_buffer self') = capacity (_buffer self)
    ∧ learning_steps log
      = (cursor (_buffer self) + length transitions) / capacity (_buffer self)
    ∧ cursor (_buffer self')
      = (cursor (_buffer self) + length transitions) mod capacity (_buffer self).
Proof.
  induction transitions as [| [[ts a] nts] rest IH]; intros self Hready Hnt.
  - exists [], self. destruct Hready as [Hwf Hlt]. cbn [length].
    rewrite Nat.add_0_r, Nat.div_small, Nat.mod_small by done. done.
  - apply Forall_cons in Hnt as [Hlast Hrest]. cbn in Hlast.
    destruct (update_outcome self ts a nts Hready)
      as (l1 & self1 & Hup & Hready1 & Hcap1 & Hdone).
    destruct (IH self1 Hready1 Hrest) as (l2 & self2 & Hups & Hready2 & Hcap2 & Hn & Hc).
    exists (l1 ++ l2), self2. rewrite updates_cons, Hup, Hups. cbn [fst snd].
    split; [done |]. split; [done |]. split; [congruence |].
    rewrite learning_steps_app, Hn, Hc, Hcap1. cbn [length].
    destruct Hready as [_ Hlt].
    destruct Hdone as [(-> & Hcur & _) | (t & -> & _ & Hcur & [Hfull | Hl])];
      [| | congruence]; rewrite Hcur.
    + cbn. replace (cursor (_buffer self) + S (length rest))
        with (S (cursor (_buffer self)) + length rest) by lia. done.
    + cbn [learning_steps filter]. 
      replace (cursor (_buffer self) + S (length rest))
        with (1 * capacity (_buffer self) + length rest) by lia.
      rewrite Nat.div_add_l by lia.
      rewrite (Nat.add_comm (1 * _)), Nat.Div0.mod_add. cbn. done.
Qed.

(** X13. From a ready agent, updates that never end an episode make one
    learning step each time the buffer fills: after [k] of them, starting
    with the cursor at [c], there have been [(c + k) / capacity] learning
    steps and the cursor is at [(c + k) mod capacity]. *)
Theorem learning_steps_of_non_terminal_updates transitions (self : ActorCritic) :
  ready self →
  non_terminal transitions →
  ∃ log self',
    updates network optimizer discount td_lambda transitions self
      = (log, Ok (tt, self'))
    ∧ ready self'
    ∧ capacity (_buffer self') = capacity (_buffer self)
    ∧ learning_steps log
      = (cursor (_buffer self) + length transitions) / capacity (_buffer self)
    ∧ cursor (_buffer self')
      = (cursor (_buffer self) + length transitions) mod capacity (_buffer self).
Proof. apply updates_count. Qed.

(** The learning steps of any updates of a ready agent. *)
Lemma updates_outcome transitions : ∀ self : ActorCritic,
  ready self →
  ∃ log self',
    updates network optimizer discount td_lambda transitions self
      = (log, Ok (tt, self'))
    ∧ ready self'
    ∧ capacity (_buffer self') = capacity (_buffer self)
    ∧ learning_steps log ≤ length transitions
    ∧ Forall (λ trajectory,
                ∃ n, 1 ≤ n ≤ capacity (_buffer self)
                     ∧ trajectory_of_length n trajectory)
        (trajectories log).
Proof.
  induction transitions as [| [[ts a] nts] rest IH]; intros self Hready.
  - exists [], self. cbn. split_and!; done.
  - destruct (update_outcome self ts a nts Hready)
      as (l1 & self1 & Hup & Hready1 & Hcap1 & Hdone).
    destruct (IH self1 Hready1) as (l2 & self2 & Hups & Hready2 & Hcap2 & Hn & Hall).
    exists (l1 ++ l2), self2. rewrite updates_cons, Hup, Hups. cbn [fst snd].
    split; [done |]. split; [done |]. split; [congruence |].
    rewrite learning_steps_app, trajectories_app, <- Hcap1.
    destruct Hready as [_ Hlt].
    destruct Hdone as [(-> & _ & _) | (t & -> & Hlen & _ & _)].
    + change (learning_steps []) with 0. cbn [length]. split; [lia | done].
    + change (learning_steps [call_sgd_step (_state self) t]) with 1.
      cbn [length]. split; [lia |]. cbn. constructor; [| done].
      exists (S (cursor (_buffer self))). split; [lia | done].
Qed.

(** X14. An agent built with a sequence length of at least 1 can be
    updated for ever: no update raises, each makes at most one learning
    step, and every learning step is on a trajectory of between 1 and
    [sequence_length] transitions with one more observation than
    actions, rewards and discounts, so never on an empty one. *)
Theorem constructed_agent_updates obs_spec action_spec rng sequence_length
    transitions :
  0 < sequence_length →
  ∃ log self',
    updates network optimizer discount td_lambda transitions
      (ActorCritic_init network optimizer obs_spec action_spec rng sequence_length).2
      = (log, Ok (tt, self'))
    ∧ ready self'
    ∧ learning_steps log ≤ length transitions
    ∧ Forall (λ trajectory,
                ∃ n, 1 ≤ n ≤ sequence_length ∧ trajectory_of_length n trajectory)
        (trajectories log).
Proof.
  intros Hpos.
  pose proof (ActorCritic_init_ready network optimizer obs_spec action_spec rng
                sequence_length Hpos) as Hready.
  destruct (updates_outcome transitions _ Hready)
    as (log & self' & Hups & Hready' & _ & Hn & Hall).
  exists log, self'. split; [done |]. split; [done |]. split; [done |].
  replace (capacity _) with sequence_length in Hall; [done |].
  unfold ActorCritic_init. by destruct (next rng).
Qed.

(** X15. An agent built with a sequence length of 0 cannot be updated:
    its buffer is full from the start, so every update raises a
    [ValueError] at the append, before any learning step. *)
Theorem zero_length_agent_update_raises obs_spec action_spec rng
    timestep action new_timestep :
  ∃ msg,
    update network optimizer discount td_lambda timestep action new_timestep
      (ActorCritic_init network optimizer obs_spec action_spec rng 0).2
    = ([], Raise (ValueError msg)).
Proof.
  rewrite update_cases. unfold ActorCritic_init.
  destruct (next rng) as [key rng']. cbn. eauto.
Qed.

(** X16. On a trajectory of [n] transitions, with a network that returns
    one row of logits and one value per observation and a TD-lambda
    computation that returns one error per step, every array that the loss
    hands to rlax has length [n]. *)
Theorem loss_shapes (p : Params) (trajectory : Trajectory) (n : nat) :
  trajectory_of_length n trajectory →
  (∀ p obs, length (net_apply network p obs).1 = length obs
            ∧ length (net_apply network p obs).2 = length obs) →
  (∀ v_tm1 r_t discount_t v_t lambda_,
     length r_t = length v_tm1 → length discount_t = length v_tm1 →
     length v_t = length v_tm1 →
     length (rlax_td_lambda v_tm1 r_t discount_t v_t lambda_) = length v_tm1) →
  Forall (λ c, call_lengths c = [n; n; n; n])
    (loss_calls network discount td_lambda p trajectory).
Proof.
  intros (Ho & Ha & Hr & Hd) Hnet Htd. unfold loss_calls, loss.
  destruct (Hnet p (observations trajectory)) as [Hl Hv].
  destruct (net_apply network p (observations trajectory)) as [logits values].
  cbn in Hl, Hv. rewrite Ho in Hl, Hv.
  assert (Hrm : length (removelast values) = n).
  { destruct values as [| v vs] using rev_ind; [discriminate |].
    rewrite removelast_last. rewrite length_app in Hv. cbn in Hv. lia. }
  assert (Hrl : length (removelast logits) = n).
  { destruct logits as [| l ls] using rev_ind; [discriminate |].
    rewrite removelast_last. rewrite length_app in Hl. cbn in Hl. lia. }
  assert (Htl : length (tail values) = n).
  { destruct values; [discriminate |]. cbn in *. lia. }
  assert (Hdm : length (map (λ d, fmul d discount) (discounts trajectory)) = n)
    by (by rewrite length_map).
  assert (Herr : length (rlax_td_lambda (removelast values) (rewards trajectory)
                           (map (λ d, fmul d discount) (discounts trajectory))
                           (tail values) td_lambda) = n).
  { rewrite Htd; congruence. }
  cbn. repeat constructor; cbn.
  - by rewrite Hrm, Hr, Hdm, Htl.
  - unfold jnp_ones_like. by rewrite Hrl, Ha, length_replicate, Herr.
Qed.
End AgentMore.


(** ** The further statements on the concrete instance *)
Section MoreExamples.
Import sequence agent agent_more run run_more wandb_logging wandb_more Toy ToyMore.

Lemma slash_not_dash : slash ≠ dash.
Proof. intros Heq. discriminate Heq. Defined.

Lemma safe_bsuite_id_no_separator_witness :
  SEPARATOR toy_sweep = String slash EmptyString
  ∧ slash ≠ dash
  ∧ (slash ∉ chars (safe_bsuite_id toy_sweep "deep_sea/12"))
  ∧ String.length (safe_bsuite_id toy_sweep "deep_sea/12") = 11.
Proof.
  split; [reflexivity |]. split; [exact slash_not_dash |].
  exact (safe_bsuite_id_no_separator toy_sweep slash eq_refl "deep_sea/12"
           slash_not_dash).
Defined.

Lemma safe_bsuite_id_fixed_iff_witness :
  SEPARATOR toy_sweep = String slash EmptyString
  ∧ slash ≠ dash
  ∧ (safe_bsuite_id toy_sweep "catch-0" = "catch-0" ↔ slash ∉ chars "catch-0").
Proof.
  split; [reflexivity |]. split; [exact slash_not_dash |].
  exact (safe_bsuite_id_fixed_iff toy_sweep slash eq_refl "catch-0" slash_not_dash).
Defined.

Lemma experiment_name_collision_witness :
  SEPARATOR toy_sweep = String slash EmptyString
  ∧ slash ≠ dash
  ∧ slash ∈ chars "catch/0"
  ∧ ∃ other, other ≠ "catch/0"
             ∧ experiment_name toy_sweep other = experiment_name toy_sweep "catch/0".
Proof.
  assert (Hin : slash ∈ chars "catch/0")
    by (apply list_elem_of_In; cbn; auto 10).
  split; [reflexivity |]. split; [exact slash_not_dash |]. split; [exact Hin |].
  exact (experiment_name_collision toy_sweep slash eq_refl "catch/0"
           slash_not_dash Hin).
Defined.

Lemma safe_bsuite_id_round_trip_witness :
  SEPARATOR toy_sweep = String slash EmptyString
  ∧ (dash ∉ chars "catch/0")
  ∧ str_replace (safe_bsuite_id toy_sweep "catch/0") "-" "/" = "catch/0".
Proof.
  assert (Hdash : dash ∉ chars "catch/0").
  { intros Hin. apply list_elem_of_In in Hin. cbn in Hin.
    repeat (destruct Hin as [Hin | Hin]; [discriminate Hin |]). exact Hin. }
  split; [reflexivity |]. split; [exact Hdash |].
  exact (safe_bsuite_id_round_trip toy_sweep slash eq_refl "catch/0" Hdash).
Defined.

Lemma experiment_name_shape_witness :
  SEPARATOR toy_sweep = String slash EmptyString
  ∧ String.length (experiment_name toy_sweep "catch/0") = 19
  ∧ String.substring 12 7 (experiment_name toy_sweep "catch/0") = "catch-0".
Proof.
  split; [reflexivity |].
  destruct (experiment_name_shape toy_sweep slash eq_refl "catch/0")
    as (_ & Hlen & Hsub).
  split; [exact Hlen | exact Hsub].
Defined.

Lemma run_load_failure_witness :
  toy_load_and_record "nosuch/0" "/tmp/bsuite" wandb false = Raise (KeyError "nosuch/0")
  ∧ run toy_load_and_record toy_build_agent "nosuch/0" (toy_flags "nosuch/0" None)
    = ([call_load_and_record "nosuch/0" "/tmp/bsuite" wandb false],
       Raise (KeyError "nosuch/0"))
  ∧ run_with_wandb_logging toy_load_and_record_to_wandb toy_build_agent "nosuch/0"
      (toy_flags "nosuch/0" None)
    = ([call_load_and_record_to_wandb "nosuch/0" 1000 "rl-with-ts-obs"
          "bolling-adrien" "ts-bsuite" (wandb_config "nosuch/0" None) None false],
       Raise (KeyError "nosuch/0")).
Proof.
  split; [reflexivity |].
  exact (run_load_failure toy_load_and_record toy_load_and_record_to_wandb
           toy_build_agent "nosuch/0" (toy_flags "nosuch/0" None) (KeyError "nosuch/0")
           (KeyError "nosuch/0") eq_refl eq_refl).
Defined.

Lemma run_scalar_observations_witness :
  spec_shape (observation_spec toy_scalar_env) = []
  ∧ run (λ _ _ _ _, Ok toy_scalar_env) toy_build_agent "catch/0"
      (toy_flags "catch/0" (Some 7%Z))
    = ([call_load_and_record "catch/0" "/tmp/bsuite" wandb false;
        call_default_agent {| spec_shape := [] |} toy_action_spec],
       Raise (IndexError "tuple index out of range")).
Proof.
  split; [reflexivity |].
  exact (proj1 (run_scalar_observations (λ _ _ _ _, Ok toy_scalar_env)
                  (λ _ _ _ _ _ _ _ _, Ok toy_scalar_env) toy_build_agent "catch/0"
                  (toy_flags "catch/0" (Some 7%Z)) toy_scalar_env
                  eq_refl eq_refl eq_refl)).
Defined.


Lemma main_sweep_dispatch_witness :
  ("CATCH" ∉ SWEEP toy_sweep)
  ∧ sweep_getattr toy_sweep "CATCH" = Some (PyTuple ["catch/0"; "catch/1"])
  ∧ (main toy_sweep toy_load_and_record toy_load_and_record_to_wandb toy_build_agent toy_map_mpi
       (toy_flags "CATCH" (Some 3%Z))).1
    = [call_print "Running sweep over bsuite_id in sweep.{bsuite_sweep}"
         (PyTuple ["catch/0"; "catch/1"]);
       call_map_mpi (PyTuple ["catch/0"; "catch/1"]);
       call_load_and_record "catch/0" "/tmp/bsuite" wandb false;
       call_default_agent toy_obs_spec toy_action_spec;
       call_experiment_run toy_env (PyInt 3) false;
       call_load_and_record "catch/1" "/tmp/bsuite" wandb false;
       call_default_agent toy_obs_spec toy_action_spec;
       call_experiment_run toy_env (PyInt 3) false].
Proof.
  assert (Hnotin : "CATCH" ∉ SWEEP toy_sweep).
  { intros Hin. apply list_elem_of_In in Hin. cbn in Hin.
    destruct Hin as [Hin | [Hin | []]]; discriminate Hin. }
  split; [exact Hnotin |]. split; [reflexivity |].
  rewrite (main_sweep_dispatch toy_sweep toy_load_and_record
             toy_load_and_record_to_wandb toy_build_agent toy_map_mpi (toy_flags "CATCH" (Some 3%Z))
             (PyTuple ["catch/0"; "catch/1"]) Hnotin eq_refl).
  reflexivity.
Defined.


Lemma policy_frozen_between_learning_steps_witness :
  ∃ self',
    updates toy_network toy_optimizer (99 # 100)%Q (9 # 10)%Q
      [(step FIRST 0 1 (obs 1 2), 1%Z, step MID 1 1 (obs 3 4))] toy_agent
    = ([], Ok (tt, self'))
    ∧ actions_of (select_actions toy_network [step MID 1 1 (obs 3 4)] self')
      = actions_of (select_actions toy_network [step MID 1 1 (obs 3 4)] toy_agent).
Proof.
  eexists. split; [reflexivity |].
  exact (proj2 (policy_frozen_between_learning_steps toy_network toy_optimizer
                  (99 # 100)%Q (9 # 10)%Q
                  [(step FIRST 0 1 (obs 1 2), 1%Z, step MID 1 1 (obs 3 4))]
                  [step MID 1 1 (obs 3 4)] toy_agent _ [] eq_refl eq_refl)).
Defined.

Lemma toy_agent_ready : ready toy_agent.
Proof. split; [split; cbn; lia | cbn; lia]. Defined.

Lemma toy_transitions_non_terminal : non_terminal toy_transitions.
Proof. repeat constructor. Defined.

Lemma learning_steps_of_non_terminal_updates_witness :
  ready toy_agent
  ∧ non_terminal toy_transitions
  ∧ ∃ log self',
      updates toy_network toy_optimizer (99 # 100)%Q (9 # 10)%Q toy_transitions
        toy_agent = (log, Ok (tt, self'))
      ∧ learning_steps log = 1
      ∧ cursor (_buffer self') = 1.
Proof.
  split; [exact toy_agent_ready |]. split; [exact toy_transitions_non_terminal |].
  destruct (learning_steps_of_non_terminal_updates toy_network toy_optimizer
              (99 # 100)%Q (9 # 10)%Q toy_transitions toy_agent toy_agent_ready
              toy_transitions_non_terminal)
    as (log & self' & Hups & _ & _ & Hn & Hc).
  exists log, self'. split; [exact Hups |]. split; [exact Hn | exact Hc].
Defined.

Lemma constructed_agent_updates_witness :
  0 < 2
  ∧ ∃ log self',
      updates toy_network toy_optimizer (99 # 100)%Q (9 # 10)%Q toy_transitions
        (ActorCritic_init toy_network toy_optimizer toy_obs_spec toy_action_spec
           (PRNGSequence_new 7) 2).2
      = (log, Ok (tt, self'))
      ∧ learning_steps log ≤ 3.
Proof.
  split; [lia |].
  destruct (constructed_agent_updates toy_network toy_optimizer (99 # 100)%Q
              (9 # 10)%Q toy_obs_spec toy_action_spec (PRNGSequence_new 7) 2
              toy_transitions ltac:(lia))
    as (log & self' & Hups & _ & Hn & _).
  exists log, self'. split; [exact Hups | exact Hn].
Defined.

Lemma td0_length : ∀ v_tm1 r_t discount_t v_t : list Q,
  length r_t = length v_tm1 → length discount_t = length v_tm1 →
  length v_t = length v_tm1 →
  length (td0 v_tm1 r_t discount_t v_t) = length v_tm1.
Proof.
  induction v_tm1 as [| v vs IH]; intros [| r rs] [| d ds] [| v' vs'] Hr Hd Hv;
    try discriminate; [reflexivity |].
  cbn in *. f_equal. apply IH; congruence.
Defined.

Lemma loss_shapes_witness :
  trajectory_of_length 3 toy_trajectory
  ∧ Forall (λ c, call_lengths c = [3; 3; 3; 3])
      (loss_calls toy_network (99 # 100)%Q (9 # 10)%Q 2%Q toy_trajectory).
Proof.
  assert (Hlen : trajectory_of_length 3 toy_trajectory) by (repeat split).
  split; [exact Hlen |].
  apply (loss_shapes toy_network (99 # 100)%Q (9 # 10)%Q 2%Q toy_trajectory 3 Hlen).
  - intros p obs. cbn. by rewrite !length_map.
  - intros v_tm1 r_t discount_t v_t lambda_. cbn. apply td0_length.
Defined.
End MoreExamples.
